(** * Bridge/src/languageService.ts: versioned script snapshots and
      completion pruning

    A shallow embedding of module [Bridge]: the [ScriptSnapshot] class (a
    versioned text buffer with a bounded change history), the file map of
    [LanguageServiceHost], and the completion pruning that runs in front of
    the TypeScript language service.

    Conventions.
    - A JavaScript number that the code uses as an offset, a length or a
      version is an integer, modelled in [Z]; any integer may come in from
      the caller, negative ones included.  Sums and differences are exact
      up to [JS.maxExact] = 2^53; a statement about a sum that may pass
      this bound says so in a hypothesis.
    - A JavaScript string is a sequence of code units; it is modelled by
      [string], one [ascii] per code unit, which covers the code units
      below 256.
    - [undefined] is [None] in an [option]; [null] likewise where a value
      may be [null].
    - A call that can throw returns a [Completion]; when the call also
      changes an object before it throws, it returns the outcome together
      with the state it leaves.
    - An object that a method mutates is passed in and returned; the file
      map holds the snapshots, and a method that mutates one stores the
      new state back under its key. *)

From Stdlib Require Import ZArith String Ascii List Lia Bool.
From stdpp Require Import gmap strings.
From Equations Require Import Equations.
From Equations.Prop Require Import Logic.
Import ListNotations.

Local Open Scope string_scope.
Local Open Scope list_scope.
Local Open Scope Z_scope.

(** ** The JavaScript primitives the module calls *)

Module JS.

(** [s.length] *)
Definition length (s : string) : Z := Z.of_nat (String.length s).

(** [min(max(n, 0), len)]: how [substring] treats each of its bounds. *)
Definition clamp (n len : Z) : Z := Z.min (Z.max n 0) len.

(** [s.substring(start, end)]: both bounds are clamped into [0, s.length]
    and swapped when the first exceeds the second. *)
Definition substring (s : string) (start end_ : Z) : string :=
  let len := length s in
  let finalStart := clamp start len in
  let finalEnd := clamp end_ len in
  let from := Z.min finalStart finalEnd in
  let to := Z.max finalStart finalEnd in
  String.substring (Z.to_nat from) (Z.to_nat (to - from)) s.

(** [s.charAt(pos)]: the empty string outside the string. *)
Definition charAt (s : string) (pos : Z) : string :=
  if (0 <=? pos) && (pos <? length s)
  then String.substring (Z.to_nat pos) 1 s
  else "".

(** [s[i]]: [undefined] outside the string. *)
Definition at_index (s : string) (i : Z) : option string :=
  if (0 <=? i) && (i <? length s)
  then Some (String.substring (Z.to_nat i) 1 s)
  else None.

(** [s.indexOf(search)]: the first index at which [search] occurs, [-1]
    when it does not occur. *)
Definition indexOf (s search : string) : Z :=
  match String.index 0 search s with
  | Some n => Z.of_nat n
  | None => -1
  end.

(** Upper-case form of one code unit below 256.  The letters a-z and the
    accented lower-case letters move down by 32; sharp s (223) becomes
    the two letters SS; the micro sign (181) and y with diaeresis (255)
    have upper-case forms above 255, which no comparison in this module
    tells apart from the code units themselves, so they are kept. *)
Definition toUpperCase_unit (c : ascii) : string :=
  let n := nat_of_ascii c in
  if ((97 <=? n) && (n <=? 122))%nat then String (ascii_of_nat (n - 32)) ""
  else if (n =? 223)%nat then "SS"
  else if ((224 <=? n) && (n <=? 254) && negb (n =? 247))%nat
       then String (ascii_of_nat (n - 32)) ""
  else String c "".

(** [s.toUpperCase()] *)
Fixpoint toUpperCase (s : string) : string :=
  match s with
  | EmptyString => EmptyString
  | String c rest => toUpperCase_unit c +:+ toUpperCase rest
  end.

(** [a <= b] on strings: code unit by code unit. *)
Definition le (a b : string) : bool := String.leb a b.

(** The integers up to this bound are numbers, and a sum of two
    non-negative numbers that stays within it is exact. *)
Definition maxExact : Z := 2 ^ 53.

Definition isExact (n : Z) : Prop := - maxExact <= n <= maxExact.

(** [a.slice(start)]: a negative [start] counts from the end. *)
Definition slice {A} (a : list A) (start : Z) : list A :=
  let len := Z.of_nat (List.length a) in
  let k := if start <? 0 then Z.max (len + start) 0 else Z.min start len in
  skipn (Z.to_nat k) a.

End JS.

(** Outcome of a call: a value, or a thrown error.  [TypeError] is what
    a method call on [undefined] throws; [AssertionError] stands for the
    plain [Error] of a failed assertion. *)
Inductive JsError := TypeError | AssertionError.

Inductive Completion (A : Type) :=
| Normal (a : A)
| Throw (e : JsError).
Arguments Normal {A} a.
Arguments Throw {A} e.

#[global] Instance Completion_ret : MRet Completion := fun A a => Normal a.

#[global] Instance Completion_bind : MBind Completion := fun A B k c =>
  match c with
  | Normal a => k a
  | Throw e => Throw e
  end.

(** ** TypeScript.TextChangeRange *)

(** Modelled from the spec: [TypeScript.TextChangeRange] and
    [TypeScript.TextSpan] are declared in the TypeScript compiler sources,
    not in this module.  The spec gives the record: the half-open range
    [spanStart, spanEnd) of the text before the edit, and the length of the
    text that replaced it.  [TextSpan.fromBounds (s, e)] and the
    [TextChangeRange] constructor are taken to build this record. *)
Record TextChangeRange := mkTextChangeRange {
  spanStart : Z;
  spanEnd : Z;
  newLength : Z
}.

(** Modelled from the spec: [TextSpan.fromBounds (start, end)], of the
    TypeScript compiler sources.  An edit must start at 0 or later, and the
    span it replaces cannot end before it starts: the call asserts
    [start >= 0] and [end - start >= 0] and throws otherwise. *)
Definition fromBounds (start end_ : Z) : Completion (Z * Z) :=
  if (start <? 0) || (end_ - start <? 0)
  then Throw AssertionError
  else Normal (start, end_).

(** Modelled from the spec: [TextChangeRange.unchanged], the "no change"
    sentinel: an empty span replaced by nothing. *)
Definition unchanged : TextChangeRange := mkTextChangeRange 0 0 0.

(** The net length delta of one change: [newLength - (spanEnd - spanStart)]. *)
Definition netDelta (c : TextChangeRange) : Z :=
  newLength c - (spanEnd c - spanStart c).

(** Modelled from the spec: one step of the collapse.  [c1] is expressed
    over the oldest text, [c2] over the text [c1] produced; the result
    covers both, over the oldest text. *)
Definition mergeChange (c1 c2 : TextChangeRange) : TextChangeRange :=
  let oldStart1 := spanStart c1 in
  let oldEnd1 := spanEnd c1 in
  let newEnd1 := oldStart1 + newLength c1 in
  let oldStart2 := spanStart c2 in
  let oldEnd2 := spanEnd c2 in
  let newEnd2 := oldStart2 + newLength c2 in
  let oldStartN := Z.min oldStart1 oldStart2 in
  let oldEndN := Z.max oldEnd1 (oldEnd1 + (oldEnd2 - newEnd1)) in
  let newEndN := Z.max newEnd2 (newEnd2 + (newEnd1 - oldEnd2)) in
  mkTextChangeRange oldStartN oldEndN (newEndN - oldStartN).

(** Modelled from the spec:
    [TextChangeRange.collapseChangesAcrossMultipleVersions], of the
    TypeScript compiler sources.  It collapses the changes, oldest first,
    into one merged range whose span is the union of the affected positions
    of the oldest text; no change at all collapses to the sentinel. *)
Definition collapseChangesAcrossMultipleVersions
    (changes : list TextChangeRange) : TextChangeRange :=
  match changes with
  | [] => unchanged
  | change0 :: rest => fold_left mergeChange rest change0
  end.

(** ** class ScriptSnapshot *)

(** The fields of the class.  [lineStartPositions] is recomputed from
    [content] by every [updateContent] and read by nothing in this module;
    it carries no state of its own and is left out. *)
Record ScriptSnapshot := mkScriptSnapshot {
  file : string;
  version : Z;
  open : bool;
  content : string;
  changes : list TextChangeRange
}.

Definition maxChanges : Z := 100.

Module Snapshot.

(** [updateContent(content, resetChanges = true)] *)
Definition updateContent (this : ScriptSnapshot) (content' : string)
    (resetChanges : bool) : bool * ScriptSnapshot :=
  let changes1 := if resetChanges then [] else changes this in
  (true,
   {| file := file this;
      version := version this + 1;
      open := open this;
      content := content';
      changes := changes1 |}).

(** [constructor(file)]; [contents] is what [readFileContents(file)]
    returns.  [content] and [changes] are unset until [updateContent]
    assigns them. *)
Definition new (file0 : string) (contents : string) : ScriptSnapshot :=
  let this := {| file := file0; version := 0; open := true;
                 content := ""; changes := [] |} in
  snd (updateContent this contents true).

Definition getVersion (this : ScriptSnapshot) : Z := version this.

Definition isOpen (this : ScriptSnapshot) : bool := open this.

Definition setOpen (this : ScriptSnapshot) : ScriptSnapshot :=
  {| file := file this; version := version this; open := true;
     content := content this; changes := changes this |}.

Definition setClosed (this : ScriptSnapshot) : ScriptSnapshot :=
  {| file := file this; version := version this; open := false;
     content := content this; changes := changes this |}.

(** [addEdit(offset, length, replacementText)]: the outcome, and the
    snapshot as the call leaves it.  The history is cleared first when it is
    full; [TextSpan.fromBounds] may then throw, before the range is pushed
    and before [updateContent] runs. *)
Definition addEdit (this : ScriptSnapshot) (offset length : Z)
    (replacementText : string) : Completion bool * ScriptSnapshot :=
  let changes1 :=
    if Z.of_nat (List.length (changes this)) >=? maxChanges
    then []
    else changes this in
  let this1 :=
    {| file := file this; version := version this; open := open this;
       content := content this; changes := changes1 |} in
  let beforeEdit := JS.substring (content this) 0 offset in
  let afterEdit :=
    JS.substring (content this) (offset + length) (JS.length (content this)) in
  let newContent := beforeEdit +:+ replacementText +:+ afterEdit in
  match fromBounds offset (offset + length) with
  | Throw e => (Throw e, this1)
  | Normal (spanStart0, spanEnd0) =>
      let textChangeRange :=
        mkTextChangeRange spanStart0 spanEnd0 (JS.length replacementText) in
      let this2 :=
        {| file := file this; version := version this; open := open this;
           content := content this;
           changes := changes1 ++ [textChangeRange] |} in
      let '(r, this3) := updateContent this2 newContent false in
      (Normal r, this3)
  end.

(** [getText(start, end)] *)
Definition getText (this : ScriptSnapshot) (start end_ : Z) : string :=
  JS.substring (content this) start end_.

Definition getLength (this : ScriptSnapshot) : Z := JS.length (content this).

(** [getTextChangeRangeSinceVersion(version)]; [None] is [null]. *)
Definition getTextChangeRangeSinceVersion (this : ScriptSnapshot)
    (version0 : Z) : option TextChangeRange :=
  if version this =? version0 then Some unchanged
  else if version this - version0 <=? Z.of_nat (List.length (changes this))
  then
    let start := Z.of_nat (List.length (changes this)) - (version this - version0) in
    let changes1 := JS.slice (changes this) start in
    Some (collapseChangesAcrossMultipleVersions changes1)
  else None.

End Snapshot.

(** ** The collaborators of the module *)

(** Modelled from the spec: [Services.CompletionEntry].  The module reads
    the [name] of an entry and hands the rest through untouched. *)
Record CompletionEntry := mkCompletionEntry {
  name : string;
  kind : string
}.

(** Modelled from the spec: [Services.CompletionInfo], what the engine
    answers to a completion query. *)
Record CompletionInfo := mkCompletionInfo {
  info_entries : list CompletionEntry
}.

(** [IO.readFile(filePath).contents()] *)
Class FileSource := {
  readFileContents : string -> string
}.

(** [Services.LanguageService], the external engine.  It is created over
    the host and reads the snapshots through it, so its answers may depend
    on the file map. [None] is the [null] answer: no completions. *)
Class LanguageService := {
  CompletionEntryDetails : Type;
  engine_getCompletionsAtPosition :
    gmap string ScriptSnapshot -> string -> Z -> bool -> option CompletionInfo;
  engine_getCompletionEntryDetails :
    gmap string ScriptSnapshot -> string -> Z -> string -> CompletionEntryDetails
}.

(** The queries sent to the engine, in the order they are sent. *)
Inductive EngineCall :=
| QueryCompletions (fileName : string) (position : Z) (isMemberCompletion : bool)
| QueryEntryDetails (fileName : string) (position : Z) (entryName : string).

(** A host method that talks to the engine: its outcome, and the queries
    it sent. *)
Definition Traced (A : Type) : Type := (Completion A * list EngineCall)%type.

Definition tret {A} (a : A) : Traced A := (Normal a, []).

Definition tbind {A B} (m : Traced A) (k : A -> Traced B) : Traced B :=
  match m with
  | (Normal a, calls) => let '(r, calls') := k a in (r, calls ++ calls')
  | (Throw e, calls) => (Throw e, calls)
  end.

Definition lift {A} (c : Completion A) : Traced A := (c, []).

Notation "'let*' x ':=' m 'in' k" := (tbind m (fun x => k))
  (at level 10, x name, m at level 100, k at level 200, only parsing).

(** [interface AutoCompletionInfo]; [None] is a [null] entry array. *)
Record AutoCompletionInfo := mkAutoCompletionInfo {
  abbreviated_entries : option (list CompletionEntry)
}.

(** [interface DetailedAutoCompletionInfo] *)
Record DetailedAutoCompletionInfo {Details : Type} := mkDetailedAutoCompletionInfo {
  pruningPrefix : string;
  entries : list Details
}.
Arguments DetailedAutoCompletionInfo Details : clear implicits.
Arguments mkDetailedAutoCompletionInfo {Details} _ _.

(** ** class LanguageServiceHost *)

(** [v === s] for a value that is a string or [undefined]. *)
Definition strict_eq (v : option string) (s : string) : bool :=
  match v with
  | Some x => String.eqb x s
  | None => false
  end.

Definition newline : string := String "010"%char "".

Module Host.

(** [validMethodChar(orig_c)]: [orig_c.toUpperCase()] throws on
    [undefined]. *)
Definition validMethodChar (orig_c : option string) : Completion bool :=
  match orig_c with
  | None => Throw TypeError
  | Some orig =>
      let c := JS.toUpperCase orig in
      if JS.le "A" c && JS.le c "Z" then Normal true
      else if String.eqb c "(" || String.eqb c ")" then Normal true
      else if JS.le "0" c && JS.le c "9" then Normal true
      else if String.eqb c "$" || String.eqb c "_" then Normal true
      else Normal false
  end.

(** [prefixMatch(_prefix, str)] *)
Definition prefixMatch (_prefix str : string) : bool :=
  JS.indexOf str _prefix =? 0.

(** [knownToBreak(prefix)] *)
Definition knownToBreak (prefix : string) : bool :=
  let badPrefix := [] ++ ["$"] in
  existsb (fun bad => String.eqb bad prefix) badPrefix.

(** The loop of [getPrefix]:
    [for (...; this.validMethodChar(snapshot.charAt(index)); index--);]
    and the value of [index] when it ends. *)
Equations? scanBack (snapshot : string) (index : Z) : Completion Z
  by wf (Z.to_nat (index + 1)) lt :=
  scanBack snapshot index
    with inspect (validMethodChar (Some (JS.charAt snapshot index))) := {
    | exist _ (Normal true) Hvalid => scanBack snapshot (index - 1);
    | exist _ (Normal false) _ => Normal index;
    | exist _ (Throw e) _ => Throw e }.
Proof.
  unfold JS.charAt in Hvalid.
  destruct (0 <=? index) eqn:Hlo; simpl in Hvalid; [|discriminate].
  apply Z.leb_le in Hlo. lia.
Qed.

Section Methods.

Context {source : FileSource} {engine : LanguageService}.

Implicit Type fileMap : gmap string ScriptSnapshot.

(** [addFile(file)] *)
Definition addFile fileMap (file0 : string)
    : bool * gmap string ScriptSnapshot :=
  (true, <[file0 := Snapshot.new file0 (readFileContents file0)]> fileMap).

(** [removeFile(file)] *)
Definition removeFile fileMap (file0 : string)
    : bool * gmap string ScriptSnapshot :=
  (bool_decide (is_Some (fileMap !! file0)), delete file0 fileMap).

(** [updateFileContents(file, content)]; [fileMap.get(file)] is
    [undefined] for a file that was not added. *)
Definition updateFileContents fileMap (file0 content0 : string)
    : Completion (bool * gmap string ScriptSnapshot) :=
  match fileMap !! file0 with
  | None => Throw TypeError
  | Some snapshot =>
      let '(r, snapshot') := Snapshot.updateContent snapshot content0 true in
      Normal (r, <[file0 := snapshot']> fileMap)
  end.

(** [updateFile(file)] *)
Definition updateFile fileMap (file0 : string)
    : Completion (bool * gmap string ScriptSnapshot) :=
  updateFileContents fileMap file0 (readFileContents file0).

(** [editFile(file, offset, length, replacementText)]: the outcome, and
    the file map as the call leaves it; [addEdit] works on the snapshot the
    map holds, also when it ends up throwing. *)
Definition editFile fileMap (file0 : string) (offset length : Z)
    (replacementText : string)
    : Completion bool * gmap string ScriptSnapshot :=
  match fileMap !! file0 with
  | None => (Throw TypeError, fileMap)
  | Some snapshot =>
      let '(r, snapshot') := Snapshot.addEdit snapshot offset length replacementText in
      (r, <[file0 := snapshot']> fileMap)
  end.

(** [getScriptVersion(file)] *)
Definition getScriptVersion fileMap (file0 : string) : Completion Z :=
  match fileMap !! file0 with
  | None => Throw TypeError
  | Some snapshot => Normal (Snapshot.getVersion snapshot)
  end.

(** [getScriptIsOpen(file)] *)
Definition getScriptIsOpen fileMap (file0 : string) : Completion bool :=
  match fileMap !! file0 with
  | None => Throw TypeError
  | Some snapshot => Normal (Snapshot.isOpen snapshot)
  end.

(** [getScriptSnapshot(file)] *)
Definition getScriptSnapshot fileMap (file0 : string) : option ScriptSnapshot :=
  fileMap !! file0.

(** [this.getScriptSnapshot(fileName).getText(start, end)] *)
Definition snapshotText fileMap (fileName : string) (start end_ : Z)
    : Completion string :=
  match getScriptSnapshot fileMap fileName with
  | None => Throw TypeError
  | Some snapshot => Normal (Snapshot.getText snapshot start end_)
  end.

(** [validPosition(fileName, position)] *)
Definition validPosition fileMap (fileName : string) (position : Z)
    : Completion bool :=
  if position =? 0 then Normal false
  else
    let start := position - 2 in
    let end_ := position in
    snapshot ← snapshotText fileMap fileName start end_;
    if strict_eq (JS.at_index snapshot 1) "."
    then
      valid ← validMethodChar (JS.at_index snapshot 0);
      if negb valid then Normal false else Normal true
    else
      valid ← validMethodChar (JS.at_index snapshot 1);
      if negb valid then Normal false else Normal true.

(** [getPrefix(fileName, position)] *)
Definition getPrefix fileMap (fileName : string) (position : Z)
    : Completion string :=
  let start := 0 in
  let end_ := position in
  snapshot ← snapshotText fileMap fileName start end_;
  index ← scanBack snapshot (JS.length snapshot - 1);
  if String.eqb (JS.charAt snapshot index) "."
     || String.eqb (JS.charAt snapshot index) " "
     || String.eqb (JS.charAt snapshot index) newline
  then
    let index := index + 1 in
    Normal (JS.substring snapshot index (JS.length snapshot))
  else Normal "".

(** The filtering loop of [getExplicitPrunedCompletionsAtPosition]: one
    iteration pushes the entry when its name matches. *)
Definition pruneStep (pruningPrefix0 : string)
    (prunedEntries : list CompletionEntry) (rawEntry : CompletionEntry)
    : list CompletionEntry :=
  if prefixMatch pruningPrefix0 (name rawEntry)
  then prunedEntries ++ [rawEntry]
  else prunedEntries.

(** [getExplicitPrunedCompletionsAtPosition(fileName, position, pruningPrefix)] *)
Definition getExplicitPrunedCompletionsAtPosition fileMap (fileName : string)
    (position : Z) (pruningPrefix0 : string) : Traced AutoCompletionInfo :=
  let isMemberCompletion := false in
  let rawCompletionInfo :=
    engine_getCompletionsAtPosition fileMap fileName position isMemberCompletion in
  let calls := [QueryCompletions fileName position isMemberCompletion] in
  match rawCompletionInfo with
  | None => (Normal (mkAutoCompletionInfo (Some [])), calls)
  | Some info =>
      let rawEntries := info_entries info in
      let prunedEntries := fold_left (pruneStep pruningPrefix0) rawEntries [] in
      (Normal (mkAutoCompletionInfo (Some prunedEntries)), calls)
  end.

(** The enrichment loop of [getDetailedExplicitPrunedCompletionsAtPosition]:
    one iteration asks the engine for the details of an entry and pushes
    them. *)
Definition detailStep fileMap (fileName : string) (position : Z)
    (acc : list CompletionEntryDetails * list EngineCall)
    (abbreviatedEntry : CompletionEntry)
    : list CompletionEntryDetails * list EngineCall :=
  let detailedEntry :=
    engine_getCompletionEntryDetails fileMap fileName position
      (name abbreviatedEntry) in
  (fst acc ++ [detailedEntry],
   snd acc ++ [QueryEntryDetails fileName position (name abbreviatedEntry)]).

(** [getDetailedExplicitPrunedCompletionsAtPosition(fileName, position, pruningPrefix)] *)
Definition getDetailedExplicitPrunedCompletionsAtPosition fileMap
    (fileName : string) (position : Z) (pruningPrefix0 : string)
    : Traced (DetailedAutoCompletionInfo CompletionEntryDetails) :=
  let* abbreviatedCompletionInfo :=
    getExplicitPrunedCompletionsAtPosition fileMap fileName position pruningPrefix0 in
  match abbreviated_entries abbreviatedCompletionInfo with
  | None => tret (mkDetailedAutoCompletionInfo "" [])
  | Some abbreviatedEntries =>
      let '(detailedEntries, calls) :=
        fold_left (detailStep fileMap fileName position) abbreviatedEntries ([], []) in
      (Normal (mkDetailedAutoCompletionInfo pruningPrefix0 detailedEntries), calls)
  end.

(** [getDetailedImplicitlyPrunedCompletionsAtPosition(fileName, position)] *)
Definition getDetailedImplicitlyPrunedCompletionsAtPosition fileMap
    (fileName : string) (position : Z)
    : Traced (DetailedAutoCompletionInfo CompletionEntryDetails) :=
  let* valid := lift (validPosition fileMap fileName position) in
  if (valid : bool)
  then
    let* pruningPrefix0 := lift (getPrefix fileMap fileName position) in
    if knownToBreak pruningPrefix0
    then tret (mkDetailedAutoCompletionInfo pruningPrefix0 [])
    else getDetailedExplicitPrunedCompletionsAtPosition fileMap fileName position
           pruningPrefix0
  else tret (mkDetailedAutoCompletionInfo "" []).

(** [getCompletionsAtPosition(file, position)] *)
Definition getCompletionsAtPosition fileMap (file0 : string) (position : Z)
    : Traced (DetailedAutoCompletionInfo CompletionEntryDetails) :=
  getDetailedImplicitlyPrunedCompletionsAtPosition fileMap file0 position.

End Methods.

End Host.

(** ** Sequences of calls on one snapshot *)

(** The calls that change a [ScriptSnapshot]. *)
Inductive Op :=
| OpUpdateContent (content0 : string)
| OpAddEdit (offset length : Z) (replacementText : string)
| OpSetOpen
| OpSetClosed.

(** The calls that change the content. *)
Definition isMutation (op : Op) : bool :=
  match op with
  | OpUpdateContent _ | OpAddEdit _ _ _ => true
  | OpSetOpen | OpSetClosed => false
  end.

Definition runOp (this : ScriptSnapshot) (op : Op) : ScriptSnapshot :=
  match op with
  | OpUpdateContent content0 => snd (Snapshot.updateContent this content0 true)
  | OpAddEdit offset length replacementText =>
      snd (Snapshot.addEdit this offset length replacementText)
  | OpSetOpen => Snapshot.setOpen this
  | OpSetClosed => Snapshot.setClosed this
  end.

Definition runOps (ops : list Op) (this : ScriptSnapshot) : ScriptSnapshot :=
  fold_left runOp ops this.

(** A content mutation that returns [true]: [updateContent] always, and
    [addEdit] when it does not throw.  [runOp] leaves the snapshot as the
    call left it in either case. *)
Definition mutationSucceeds (this : ScriptSnapshot) (op : Op) : bool :=
  match op with
  | OpUpdateContent content0 => fst (Snapshot.updateContent this content0 true)
  | OpAddEdit offset length replacementText =>
      match fst (Snapshot.addEdit this offset length replacementText) with
      | Normal r => r
      | Throw _ => false
      end
  | OpSetOpen | OpSetClosed => false
  end.

(** The history as [addEdit] finds it once it has made room. *)
Definition roomMade (this : ScriptSnapshot) : list TextChangeRange :=
  if Z.of_nat (List.length (changes this)) >=? maxChanges then [] else changes this.

(** How many calls of a sequence are successful content mutations. *)
Fixpoint successfulMutations (this : ScriptSnapshot) (ops : list Op) : nat :=
  match ops with
  | [] => 0
  | op :: rest =>
      ((if mutationSucceeds this op then 1 else 0)
       + successfulMutations (runOp this op) rest)%nat
  end.

(** One edit, as the arguments of [addEdit]. *)
Definition Edit : Type := (Z * Z * string)%type.

Definition opOfEdit (e : Edit) : Op :=
  let '(offset, length, replacementText) := e in
  OpAddEdit offset length replacementText.

(** The arguments of an edit are exact integers, and so is their sum. *)
Definition exactArgs (offset length : Z) : Prop :=
  JS.isExact offset /\ JS.isExact length /\ JS.isExact (offset + length).

(** The calls of a sequence pass exact integers to [addEdit]. *)
Definition opExact (op : Op) : Prop :=
  match op with
  | OpAddEdit offset length _ => exactArgs offset length
  | _ => True
  end.

(** An edit that [addEdit] lets through: it starts at 0 or later and
    replaces a span that does not end before it starts. *)
Definition editSucceeds (e : Edit) : Prop :=
  let '(offset, length, _) := e in
  0 <= offset /\ 0 <= length.

(** An edit that [addEdit] accepts and records exactly: it starts at 0 or
    later, replaces a span that does not end before it starts, and the end
    of the span is within the exact integers. *)
Definition editAccepted (e : Edit) : Prop :=
  let '(offset, length, _) := e in
  0 <= offset /\ 0 <= length /\ offset + length <= JS.maxExact.

(** ** The words of the specification *)

(** The last [k] elements of a list. *)
Definition lastn {A} (k : nat) (l : list A) : list A := rev (firstn k (rev l)).

(** The sum of the net length deltas of a list of changes. *)
Definition sumNetDelta (cs : list TextChangeRange) : Z :=
  fold_right Z.add 0 (map netDelta cs).

(** The bounds the specification asks of an edit and of a read. *)
Definition editInBounds (this : ScriptSnapshot) (offset length : Z) : Prop :=
  0 <= offset /\ offset + length <= JS.length (content this).

Definition readInBounds (this : ScriptSnapshot) (start end_ : Z) : Prop :=
  0 <= start /\ start <= end_ /\ end_ <= JS.length (content this).

(** [isIdentifierChar] as the specification words it: the ASCII letters of
    either case, the digits, and the four characters ( ) $ _ . *)
Definition isIdentifierChar (c : ascii) : bool :=
  let n := nat_of_ascii c in
  ((65 <=? n) && (n <=? 90) || (97 <=? n) && (n <=? 122)
   || (48 <=? n) && (n <=? 57)
   || (n =? 40) || (n =? 41) || (n =? 36) || (n =? 95))%nat.

(** Sharp s, the code unit 223. *)
Definition sharp_s : ascii := "223"%char.

(** What [validMethodChar] accepts among the code units below 256. *)
Definition acceptedChar (c : ascii) : bool :=
  isIdentifierChar c || Ascii.eqb c sharp_s.

(** The boundary characters of the prefix extraction: a dot, a space, a
    newline. *)
Definition isBoundary (c : ascii) : bool :=
  Ascii.eqb c "."%char || Ascii.eqb c " "%char || Ascii.eqb c "010"%char.

(** A text cut before its trailing run of identifier characters: the part
    before the run, and the run. *)
Fixpoint splitRun (isId : ascii -> bool) (s : string) : string * string :=
  match s with
  | EmptyString => (EmptyString, EmptyString)
  | String c rest =>
      let '(before, run) := splitRun isId rest in
      match before with
      | EmptyString =>
          if isId c
          then (EmptyString, String c run)
          else (String c EmptyString, run)
      | _ => (String c before, run)
      end
  end.

(** Every character of a string passes a test. *)
Fixpoint allChars (p : ascii -> bool) (s : string) : bool :=
  match s with
  | EmptyString => true
  | String c rest => p c && allChars p rest
  end.

(** The last character of a string. *)
Fixpoint lastChar (s : string) : option ascii :=
  match s with
  | EmptyString => None
  | String c EmptyString => Some c
  | String _ rest => lastChar rest
  end.

(** Prefix extraction as the specification words it: scan backward over
    the identifier characters; the run is the prefix when the character
    that stops the scan is a boundary, and the prefix is empty otherwise,
    the start of the text included. *)
Definition prefixOf (isId : ascii -> bool) (text : string) : string :=
  let '(before, run) := splitRun isId text in
  match lastChar before with
  | Some b => if isBoundary b then run else ""
  | None => ""
  end.

(** What [validMethodChar] answers on a string. *)
Definition acceptedString (s : string) : bool :=
  match Host.validMethodChar (Some s) with
  | Normal valid => valid
  | Throw _ => false
  end.

(** Position validity as the specification words it, from the characters
    [c1] at [position - 2] and [c2] at [position - 1]. *)
Definition validAfter (isId : string -> bool) (c1 c2 : string) : bool :=
  if String.eqb c2 "." then isId c1 else isId c2.

(** ** Collaborators used in the examples *)

Definition sampleEntries : list CompletionEntry :=
  [mkCompletionEntry "print" "function";
   mkCompletionEntry "process" "var";
   mkCompletionEntry "foo" "var"].

(** A file source whose every file reads [abc]. *)
Definition abcSource : FileSource := {| readFileContents := fun _ => "abc" |}.

(** An engine that always answers the three sample entries, and whose
    details of an entry are its name. *)
Definition sampleEngine : LanguageService := {|
  CompletionEntryDetails := string;
  engine_getCompletionsAtPosition := fun _ _ _ _ =>
    Some (mkCompletionInfo sampleEntries);
  engine_getCompletionEntryDetails := fun _ _ _ entryName => entryName
|}.

(** An engine that has no completions anywhere. *)
Definition silentEngine : LanguageService := {|
  CompletionEntryDetails := string;
  engine_getCompletionsAtPosition := fun _ _ _ _ => None;
  engine_getCompletionEntryDetails := fun _ _ _ entryName => entryName
|}.

(** The file map holding the single file [a.ts] with the given text. *)
Definition oneFile (text : string) : gmap string ScriptSnapshot :=
  {[ "a.ts" := Snapshot.new "a.ts" text ]}.

(** The entries the engine answers, none when it answers [null]. *)
Definition rawEntriesAt `{LanguageService} (fileMap : gmap string ScriptSnapshot)
    (fileName : string) (position : Z) : list CompletionEntry :=
  match engine_getCompletionsAtPosition fileMap fileName position false with
  | Some info => info_entries info
  | None => []
  end.

(** Three edits of [abcdef], applied to a fresh snapshot. *)
Definition threeEdits : ScriptSnapshot :=
  runOps [OpAddEdit 1 2 "xyz"; OpAddEdit 0 1 ""; OpAddEdit 4 0 "q"]
    (Snapshot.new "a.ts" "abcdef").

(** The text [x.?a], where [?] stands for sharp s, cursor at its end. *)
Definition sharpText : string := "x." +:+ String sharp_s "a".

(** ** class LanguageServiceHostService *)

Module Service.

Section Methods.

Context {source : FileSource} {engine : LanguageService}.

Implicit Type fileMap : gmap string ScriptSnapshot.

(** [addFiles(files)]: the loop calls [addFile] on each name in turn. *)
Definition addFiles fileMap (files : list string)
    : bool * gmap string ScriptSnapshot :=
  (true, fold_left (fun m file0 => snd (Host.addFile m file0)) files fileMap).

(** [removeFiles(files)]: the loop calls [removeFile] on each name in turn
    and drops what it returns. *)
Definition removeFiles fileMap (files : list string)
    : bool * gmap string ScriptSnapshot :=
  (true, fold_left (fun m file0 => snd (Host.removeFile m file0)) files fileMap).

(** [updateFileContents(file, content)] *)
Definition updateFileContents fileMap (file0 content0 : string)
    : Completion (bool * gmap string ScriptSnapshot) :=
  Host.updateFileContents fileMap file0 content0.

(** [updateFile(file)] *)
Definition updateFile fileMap (file0 : string)
    : Completion (bool * gmap string ScriptSnapshot) :=
  Host.updateFile fileMap file0.

(** [editFile(file, offset, length, replacementText)] *)
Definition editFile fileMap (file0 : string) (offset length : Z)
    (replacementText : string)
    : Completion bool * gmap string ScriptSnapshot :=
  Host.editFile fileMap file0 offset length replacementText.

(** [getCompletionsAtPosition(file, position)] *)
Definition getCompletionsAtPosition fileMap (file0 : string) (position : Z)
    : Traced (DetailedAutoCompletionInfo CompletionEntryDetails) :=
  Host.getCompletionsAtPosition fileMap file0 position.

End Methods.

End Service.

(** ** Edits in sequence *)

(** The range [addEdit] records for an edit. *)
Definition rangeOfEdit (e : Edit) : TextChangeRange :=
  let '(offset, length, replacementText) := e in
  mkTextChangeRange offset (offset + length) (JS.length replacementText).

(** Every edit of the sequence lies within the text it is applied to. *)
Fixpoint editsInBounds (this : ScriptSnapshot) (edits : list Edit) : Prop :=
  match edits with
  | [] => True
  | (offset, length, replacementText) :: rest =>
      0 <= offset /\ 0 <= length
      /\ offset + length <= JS.length (content this)
      /\ editsInBounds (snd (Snapshot.addEdit this offset length replacementText))
           rest
  end.

(** The calls that set the [open] flag. *)
Definition isToggle (op : Op) : bool := negb (isMutation op).

(** A string ends with another. *)
Definition endsWith (s suffix : string) : Prop :=
  exists before, s = before +:+ suffix.

(** The queries for the details of a list of names. *)
Definition detailQueries (fileName : string) (position : Z)
    (names : list string) : list EngineCall :=
  map (QueryEntryDetails fileName position) names.

(** A snapshot of [abcdef] after one edit, and two files side by side. *)
Definition twoFiles : gmap string ScriptSnapshot :=
  <[ "b.ts" := Snapshot.new "b.ts" "xyz" ]> (oneFile "abcdef").

(** * Properties *)

(** ** Versions and the change history *)

Lemma updateContent_succeeds this content0 resetChanges :
  fst (Snapshot.updateContent this content0 resetChanges) = true.
Proof. reflexivity. Qed.

Lemma fromBounds_accepts (offset length : Z) :
  0 <= offset -> 0 <= length ->
  fromBounds offset (offset + length) = Normal (offset, offset + length).
Proof.
  intros Hoffset Hlength. unfold fromBounds.
  destruct (Z.ltb_spec offset 0); [lia|].
  destruct (Z.ltb_spec (offset + length - offset) 0); [lia|reflexivity].
Qed.

Lemma fromBounds_rejects (offset length : Z) :
  offset < 0 \/ length < 0 ->
  fromBounds offset (offset + length) = Throw AssertionError.
Proof.
  intros Hbad. unfold fromBounds.
  destruct (Z.ltb_spec offset 0); [reflexivity|].
  destruct (Z.ltb_spec (offset + length - offset) 0); [reflexivity|lia].
Qed.

(** An edit that starts at 0 or later and has a non-negative length goes
    through. *)
Lemma addEdit_accepted this offset length replacementText :
  0 <= offset -> 0 <= length ->
  Snapshot.addEdit this offset length replacementText
  = (Normal true,
     {| file := file this; version := version this + 1; open := open this;
        content := JS.substring (content this) 0 offset +:+ replacementText
                   +:+ JS.substring (content this) (offset + length)
                         (JS.length (content this));
        changes := roomMade this
                   ++ [mkTextChangeRange offset (offset + length)
                         (JS.length replacementText)] |}).
Proof.
  intros Hoffset Hlength. unfold Snapshot.addEdit.
  rewrite (fromBounds_accepts _ _ Hoffset Hlength). reflexivity.
Qed.

(** An edit with a negative offset or a negative length throws, after room
    was made in the history and before anything else changed. *)
Lemma addEdit_rejected this offset length replacementText :
  offset < 0 \/ length < 0 ->
  Snapshot.addEdit this offset length replacementText
  = (Throw AssertionError,
     {| file := file this; version := version this; open := open this;
        content := content this; changes := roomMade this |}).
Proof.
  intros Hbad. unfold Snapshot.addEdit.
  rewrite (fromBounds_rejects _ _ Hbad). reflexivity.
Qed.

Lemma addEdit_cases (offset length : Z) :
  (0 <= offset /\ 0 <= length) \/ (offset < 0 \/ length < 0).
Proof. lia. Qed.

Lemma version_runOp this op :
  version (runOp this op)
  = version this + (if mutationSucceeds this op then 1 else 0).
Proof.
  destruct op as [content0|offset length text| |]; simpl; try lia.
  destruct (addEdit_cases offset length) as [[Ho Hl]|Hbad].
  - rewrite (addEdit_accepted _ _ _ _ Ho Hl). simpl. lia.
  - rewrite (addEdit_rejected _ _ _ _ Hbad). simpl. lia.
Qed.

Lemma version_runOps ops : forall this,
  version (runOps ops this)
  = version this + Z.of_nat (successfulMutations this ops).
Proof.
  induction ops as [|op ops IH]; intros this.
  - simpl. lia.
  - change (runOps (op :: ops) this) with (runOps ops (runOp this op)).
    rewrite IH, version_runOp. cbn [successfulMutations].
    destruct (mutationSucceeds this op); lia.
Qed.

Lemma open_new file0 contents : open (Snapshot.new file0 contents) = true.
Proof. reflexivity. Qed.

(** C1, as the claim states it, fails: the constructor sets the version to
    0 and then loads the content through [updateContent], which
    increments it; a fresh snapshot has version 1, and version 3 after two
    mutations. *)
Lemma fresh_version_not_zero :
  version (Snapshot.new "a.ts" "abc") <> 0
  /\ version (runOps [OpUpdateContent "x"; OpAddEdit 0 0 "y"]
                (Snapshot.new "a.ts" "abc")) <> 2.
Proof. split; vm_compute; discriminate. Qed.

(** C1, amended: a snapshot registered by [addFile] has version 1, is open
    and has an empty change history; after any sequence of calls of which
    N are successful content mutations (an [updateContent], or an
    [addEdit] that returns and does not throw), its version is N + 1.  The
    offsets and lengths passed to [addEdit] are exact integers. *)
Theorem fresh_snapshot_version `{FileSource} (fileMap : gmap string ScriptSnapshot)
    (file0 : string) (ops : list Op) :
  List.Forall opExact ops ->
  exists this,
    snd (Host.addFile fileMap file0) !! file0 = Some this
    /\ version this = 1
    /\ open this = true
    /\ changes this = []
    /\ version (runOps ops this)
       = Z.of_nat (successfulMutations this ops) + 1.
Proof.
  intros _. exists (Snapshot.new file0 (readFileContents file0)).
  split; [apply lookup_insert_eq|].
  repeat split. rewrite version_runOps. simpl. lia.
Qed.

Lemma fresh_snapshot_version_witness :
  List.Forall opExact [OpAddEdit (-1) 0 ""; OpUpdateContent "x"; OpAddEdit 0 1 "y"]
  /\ exists this,
       snd (Host.addFile (source := abcSource) ∅ "a.ts") !! "a.ts" = Some this
       /\ version (runOps [OpAddEdit (-1) 0 ""; OpUpdateContent "x"; OpAddEdit 0 1 "y"]
                     this) = 3.
Proof.
  assert (Hexact : List.Forall opExact
            [OpAddEdit (-1) 0 ""; OpUpdateContent "x"; OpAddEdit 0 1 "y"]).
  { repeat constructor; vm_compute; discriminate. }
  split; [exact Hexact|].
  destruct (fresh_snapshot_version (H := abcSource) ∅ "a.ts" _ Hexact)
    as (this & Hlookup & Hv1 & _ & _ & Hversion).
  exists this. split; [exact Hlookup|].
  unfold Host.addFile in Hlookup. cbn [snd] in Hlookup.
  rewrite lookup_insert_eq in Hlookup. injection Hlookup as <-.
  rewrite Hversion. reflexivity.
Defined.

(** An edit that throws is no successful mutation: a fresh snapshot is
    still at version 1 after it, and at version 2 after one more edit that
    goes through. *)
Example failed_edit_keeps_version :
  fst (Snapshot.addEdit (Snapshot.new "a.ts" "abc") (-1) 0 "") = Throw AssertionError
  /\ successfulMutations (Snapshot.new "a.ts" "abc")
       [OpAddEdit (-1) 0 ""; OpAddEdit 2 (-1) "x"; OpAddEdit 0 0 "y"] = 1%nat
  /\ version (runOps [OpAddEdit (-1) 0 ""; OpAddEdit 2 (-1) "x"]
                (Snapshot.new "a.ts" "abc")) = 1
  /\ version (runOps [OpAddEdit (-1) 0 ""; OpAddEdit 2 (-1) "x"; OpAddEdit 0 0 "y"]
                (Snapshot.new "a.ts" "abc")) = 2.
Proof. repeat split. Qed.

(** Registering [a.ts] in an empty file map, from a source that reads
    [abc]. *)
Example addFile_fresh :
  snd (Host.addFile (source := abcSource) ∅ "a.ts") !! "a.ts"
  = Some {| file := "a.ts"; version := 1; open := true; content := "abc";
            changes := [] |}.
Proof. apply lookup_insert_eq. Qed.

(** C10: [updateFileContents] on a registered file succeeds, increments
    the version by exactly 1 and empties the change history, whatever the
    new content; in particular when the new content is the current one. *)
Theorem updateFileContents_always_bumps (fileMap : gmap string ScriptSnapshot)
    (file0 : string) (this : ScriptSnapshot) (s : string) :
  fileMap !! file0 = Some this ->
  exists this',
    Host.updateFileContents fileMap file0 s = Normal (true, <[file0 := this']> fileMap)
    /\ version this' = version this + 1
    /\ changes this' = []
    /\ content this' = s
    /\ (s = content this ->
        this' = {| file := file this; version := version this + 1;
                   open := open this; content := content this;
                   changes := [] |}).
Proof.
  intros Hlookup. unfold Host.updateFileContents. rewrite Hlookup. simpl.
  eexists. split; [reflexivity|]. simpl. repeat split.
  intros ->. reflexivity.
Qed.

Lemma updateFileContents_always_bumps_witness :
  oneFile "abc" !! "a.ts" = Some (Snapshot.new "a.ts" "abc")
  /\ exists this',
      Host.updateFileContents (oneFile "abc") "a.ts" "abc"
      = Normal (true, <["a.ts" := this']> (oneFile "abc"))
      /\ version this' = 2
      /\ changes this' = [].
Proof.
  assert (Hlookup : oneFile "abc" !! "a.ts" = Some (Snapshot.new "a.ts" "abc"))
    by apply lookup_singleton_eq.
  split; [exact Hlookup|].
  destruct (updateFileContents_always_bumps (oneFile "abc") "a.ts"
              (Snapshot.new "a.ts" "abc") "abc" Hlookup)
    as (this' & Hcall & Hversion & Hchanges & _).
  exists this'. split; [exact Hcall|]. split; [exact Hversion|exact Hchanges].
Defined.

Lemma changes_addEdit this offset length replacementText :
  0 <= offset -> 0 <= length ->
  changes (snd (Snapshot.addEdit this offset length replacementText))
  = (if Z.of_nat (List.length (changes this)) >=? maxChanges
     then [] else changes this)
    ++ [mkTextChangeRange offset (offset + length) (JS.length replacementText)].
Proof.
  intros Hoffset Hlength. rewrite (addEdit_accepted _ _ _ _ Hoffset Hlength).
  reflexivity.
Qed.

Lemma length_roomMade this :
  Z.of_nat (List.length (changes this)) <= maxChanges ->
  Z.of_nat (List.length (roomMade this)) < maxChanges.
Proof.
  intros Hbound. unfold roomMade.
  destruct (Z.geb_spec (Z.of_nat (List.length (changes this))) maxChanges);
    unfold maxChanges in *; simpl; lia.
Qed.

Lemma history_bound_runOp this op :
  Z.of_nat (List.length (changes this)) <= maxChanges ->
  Z.of_nat (List.length (changes (runOp this op))) <= maxChanges.
Proof.
  intros Hbound. pose proof (length_roomMade this Hbound) as Hroom.
  destruct op as [content0|offset length text| |];
    try (unfold maxChanges in *; simpl; lia).
  change (runOp this (OpAddEdit offset length text))
    with (snd (Snapshot.addEdit this offset length text)).
  destruct (addEdit_cases offset length) as [[Ho Hl]|Hbad].
  - rewrite (addEdit_accepted _ _ _ _ Ho Hl). cbn [snd changes].
    rewrite length_app. simpl. lia.
  - rewrite (addEdit_rejected _ _ _ _ Hbad). cbn [snd changes]. lia.
Qed.

Lemma history_bound_runOps ops : forall this,
  Z.of_nat (List.length (changes this)) <= maxChanges ->
  Z.of_nat (List.length (changes (runOps ops this))) <= maxChanges.
Proof.
  induction ops as [|op ops IH]; intros this Hbound; simpl; [exact Hbound|].
  apply IH, history_bound_runOp, Hbound.
Qed.

(** While the history has room, each edit that goes through adds one entry
    and one version. *)
Lemma edits_fill_history (edits : list Edit) : forall this,
  List.Forall editSucceeds edits ->
  Z.of_nat (List.length (changes this)) + Z.of_nat (List.length edits) <= maxChanges ->
  List.length (changes (runOps (map opOfEdit edits) this))
  = (List.length (changes this) + List.length edits)%nat
  /\ version (runOps (map opOfEdit edits) this)
     = version this + Z.of_nat (List.length edits).
Proof.
  unfold maxChanges.
  induction edits as [|[[offset length] text] edits IH]; intros this Hok Hroom.
  - simpl. split; lia.
  - simpl List.length in Hroom.
    apply List.Forall_cons_iff in Hok as [[Hoffset Hlength] Hok].
    change (runOps (map opOfEdit ((offset, length, text) :: edits)) this)
      with (runOps (map opOfEdit edits)
              (snd (Snapshot.addEdit this offset length text))).
    assert (Hstep : changes (snd (Snapshot.addEdit this offset length text))
                    = changes this
                      ++ [mkTextChangeRange offset (offset + length) (JS.length text)]).
    { rewrite changes_addEdit by assumption.
      destruct (Z.geb_spec (Z.of_nat (List.length (changes this))) maxChanges)
        as [Hfull|_]; unfold maxChanges in *; [lia|reflexivity]. }
    destruct (IH (snd (Snapshot.addEdit this offset length text)) Hok)
      as [Hlen Hver].
    + rewrite Hstep, length_app. simpl. lia.
    + rewrite Hlen, Hver, Hstep, length_app.
      rewrite (addEdit_accepted _ _ _ _ Hoffset Hlength). simpl. split; lia.
Qed.

(** C4: the change history never holds more than [maxChanges] = 100
    entries, over any sequence of calls, edits that throw included; an
    edit that finds it full and goes through clears it and leaves the new
    entry alone in it; after 101 edits of a fresh snapshot that all go
    through, the history holds one entry, and asking for the changes since
    version 0 (or since the version of the fresh snapshot) returns [null],
    no error. *)
Theorem history_never_exceeds_maxChanges :
  (forall file0 contents ops,
     Z.of_nat (List.length (changes (runOps ops (Snapshot.new file0 contents))))
     <= 100)
  /\ (forall this offset length replacementText,
        100 <= Z.of_nat (List.length (changes this)) ->
        0 <= offset -> 0 <= length -> offset + length <= JS.maxExact ->
        Snapshot.addEdit this offset length replacementText
        = (Normal true,
           snd (Snapshot.addEdit this offset length replacementText))
        /\ changes (snd (Snapshot.addEdit this offset length replacementText))
           = [mkTextChangeRange offset (offset + length)
                (JS.length replacementText)])
  /\ (forall file0 contents (edits : list Edit),
        List.length edits = 101%nat ->
        List.Forall editSucceeds edits ->
        let fresh := Snapshot.new file0 contents in
        let this := runOps (map opOfEdit edits) fresh in
        List.length (changes this) = 1%nat
        /\ Snapshot.getTextChangeRangeSinceVersion this 0 = None
        /\ Snapshot.getTextChangeRangeSinceVersion this (version fresh) = None).
Proof.
  split; [|split].
  - intros file0 contents ops.
    apply (history_bound_runOps ops (Snapshot.new file0 contents)).
    unfold maxChanges. simpl. lia.
  - intros this offset length text Hfull Hoffset Hlength _.
    split; [rewrite (addEdit_accepted _ _ _ _ Hoffset Hlength); reflexivity|].
    rewrite changes_addEdit by assumption.
    destruct (Z.geb_spec (Z.of_nat (List.length (changes this))) maxChanges)
      as [_|Hroom]; unfold maxChanges in *; [reflexivity|lia].
  - intros file0 contents edits Hlen Hok fresh this.
    assert (Hsplit : edits = firstn 100 edits ++ skipn 100 edits)
      by (symmetry; apply firstn_skipn).
    assert (Hfirst : List.length (firstn 100 edits) = 100%nat)
      by (rewrite length_firstn; lia).
    assert (Hlast : List.length (skipn 100 edits) = 1%nat)
      by (rewrite length_skipn; lia).
    rewrite Hsplit in Hok. apply List.Forall_app in Hok as [Hok100 Hok1].
    destruct (skipn 100 edits) as [|[[offset length] text] [|? ?]];
      try discriminate Hlast.
    apply List.Forall_cons_iff in Hok1 as [[Hoffset Hlength] _].
    destruct (edits_fill_history (firstn 100 edits) fresh Hok100)
      as [Hchanges Hversion].
    { unfold maxChanges. rewrite Hfirst. simpl. lia. }
    assert (Hstep : this
                    = snd (Snapshot.addEdit
                             (runOps (map opOfEdit (firstn 100 edits)) fresh)
                             offset length text)).
    { subst this. rewrite Hsplit at 1. unfold runOps.
      rewrite map_app, fold_left_app. reflexivity. }
    assert (Hone : changes this
                   = [mkTextChangeRange offset (offset + length) (JS.length text)]).
    { rewrite Hstep, changes_addEdit by assumption.
      destruct (Z.geb_spec
                  (Z.of_nat (List.length
                     (changes (runOps (map opOfEdit (firstn 100 edits)) fresh))))
                  maxChanges) as [_|Hroom]; [reflexivity|].
      unfold maxChanges in Hroom. rewrite Hchanges, Hfirst in Hroom.
      simpl in Hroom. lia. }
    assert (Hv : version this = 102).
    { rewrite Hstep, (addEdit_accepted _ _ _ _ Hoffset Hlength). simpl.
      rewrite Hversion, Hfirst. simpl. lia. }
    split; [rewrite Hone; reflexivity|].
    unfold Snapshot.getTextChangeRangeSinceVersion.
    rewrite Hv, Hone. split; reflexivity.
Qed.

(** An edit that throws on a full history has already cleared it: the
    history is left empty, at the old version. *)
Example failed_edit_on_full_history :
  let full := runOps (map opOfEdit (repeat ((0, 0, "x") : Edit) 100))
                (Snapshot.new "a.ts" "abc") in
  List.length (changes full) = 100%nat
  /\ fst (Snapshot.addEdit full (-1) 0 "") = Throw AssertionError
  /\ changes (snd (Snapshot.addEdit full (-1) 0 "")) = []
  /\ version (snd (Snapshot.addEdit full (-1) 0 "")) = version full.
Proof. vm_compute. repeat split. Qed.

Lemma history_never_exceeds_maxChanges_witness :
  List.length (repeat ((0, 0, "x") : Edit) 101) = 101%nat
  /\ Snapshot.getTextChangeRangeSinceVersion
       (runOps (map opOfEdit (repeat ((0, 0, "x") : Edit) 101))
          (Snapshot.new "a.ts" "abc")) 0 = None
  /\ 100 <= Z.of_nat (List.length (changes
        (runOps (map opOfEdit (repeat ((0, 0, "x") : Edit) 100))
           (Snapshot.new "a.ts" "abc"))))
  /\ changes (snd (Snapshot.addEdit
        (runOps (map opOfEdit (repeat ((0, 0, "x") : Edit) 100))
           (Snapshot.new "a.ts" "abc")) 2 1 "yz"))
     = [mkTextChangeRange 2 3 2].
Proof.
  destruct history_never_exceeds_maxChanges as (_ & Hfull & Hedits).
  assert (Hlen : List.length (repeat ((0, 0, "x") : Edit) 101) = 101%nat)
    by reflexivity.
  assert (Hok : List.Forall editSucceeds (repeat ((0, 0, "x") : Edit) 101))
    by (apply List.Forall_forall; intros e He; apply repeat_spec in He;
        subst e; simpl; lia).
  assert (Hhundred : 100 <= Z.of_nat (List.length (changes
            (runOps (map opOfEdit (repeat ((0, 0, "x") : Edit) 100))
               (Snapshot.new "a.ts" "abc")))))
    by (vm_compute; discriminate).
  split; [exact Hlen|].
  split; [exact (proj1 (proj2 (Hedits "a.ts" "abc" _ Hlen Hok)))|].
  split; [exact Hhundred|].
  refine (proj2 (Hfull _ 2 1 "yz" Hhundred _ _ _)); vm_compute; discriminate.
Defined.

(** ** Strings *)

Lemma length_append (a b : string) :
  String.length (a +:+ b) = (String.length a + String.length b)%nat.
Proof. induction a as [|c a IH]; simpl; [reflexivity|]. rewrite IH. reflexivity. Qed.

Lemma length_substring (s : string) : forall n m,
  String.length (String.substring n m s) = Nat.min m (String.length s - n).
Proof.
  induction s as [|c s IH]; intros [|n] [|m]; simpl; try reflexivity.
  - rewrite IH. rewrite Nat.sub_0_r. reflexivity.
  - rewrite IH. reflexivity.
  - rewrite IH. reflexivity.
Qed.

Lemma clamp_range n len : 0 <= len -> 0 <= JS.clamp n len <= len.
Proof. unfold JS.clamp. lia. Qed.

Lemma clamp_idempotent n len : 0 <= len -> JS.clamp (JS.clamp n len) len = JS.clamp n len.
Proof. unfold JS.clamp. lia. Qed.

Lemma length_nonneg (s : string) : 0 <= JS.length s.
Proof. unfold JS.length. lia. Qed.

(** [substring] reads the text between its clamped bounds. *)
Lemma substring_clamped (s : string) (a b : Z) :
  JS.substring s a b
  = JS.substring s (JS.clamp a (JS.length s)) (JS.clamp b (JS.length s)).
Proof.
  unfold JS.substring.
  rewrite !clamp_idempotent by apply length_nonneg. reflexivity.
Qed.

Lemma substring_swapped (s : string) (a b : Z) :
  JS.substring s a b = JS.substring s b a.
Proof.
  unfold JS.substring. cbv zeta.
  rewrite (Z.min_comm (JS.clamp a _)), (Z.max_comm (JS.clamp a _)). reflexivity.
Qed.

Lemma length_JS_substring (s : string) (a b : Z) :
  JS.length (JS.substring s a b)
  = Z.abs (JS.clamp b (JS.length s) - JS.clamp a (JS.length s)).
Proof.
  pose proof (length_nonneg s) as Hlen.
  pose proof (clamp_range a _ Hlen) as Ha.
  pose proof (clamp_range b _ Hlen) as Hb.
  unfold JS.substring. cbv zeta.
  unfold JS.length at 1. rewrite length_substring.
  unfold JS.length in *. lia.
Qed.

(** ** Edits and reads outside the text *)

(** C2, as the claim states it, fails: an edit that runs past the end of
    the text, and a read outside it, succeed.  On the text [abc],
    replacing 5 characters from offset 1 by [x] yields [ax], a new version
    and a new history entry; reading from 2 to 10 yields [c], and reading
    from -1 to 2 yields [ab].  An edit at offset -1 does fail, but on a
    full history the failure is not without effect: the history is left
    empty. *)
Lemma edit_past_end_succeeds :
  let this := Snapshot.new "a.ts" "abc" in
  let full := runOps (map opOfEdit (repeat ((0, 0, "x") : Edit) 100)) this in
  ~ editInBounds this 1 5
  /\ Snapshot.addEdit this 1 5 "x"
     = (Normal true,
        {| file := "a.ts"; version := 2; open := true; content := "ax";
           changes := [mkTextChangeRange 1 6 1] |})
  /\ snd (Snapshot.addEdit this 1 5 "x") <> this
  /\ ~ readInBounds this 2 10
  /\ Snapshot.getText this 2 10 = "c"
  /\ ~ readInBounds this (-1) 2
  /\ Snapshot.getText this (-1) 2 = "ab"
  /\ ~ editInBounds full (-1) 0
  /\ fst (Snapshot.addEdit full (-1) 0 "") = Throw AssertionError
  /\ changes (snd (Snapshot.addEdit full (-1) 0 "")) <> changes full.
Proof.
  cbv zeta. unfold editInBounds, readInBounds.
  split; [intros [_ H]; vm_compute in H; apply H; reflexivity|].
  split; [reflexivity|].
  split; [vm_compute; discriminate|].
  split; [intros (_ & _ & H); vm_compute in H; apply H; reflexivity|].
  split; [reflexivity|].
  split; [intros (H & _); vm_compute in H; apply H; reflexivity|].
  split; [reflexivity|].
  split; [intros (H & _); vm_compute in H; apply H; reflexivity|].
  split; [vm_compute; reflexivity|].
  vm_compute. discriminate.
Qed.

(** C2, amended: only the start of an edit is checked.  [addEdit] with a
    negative offset, or a negative length (offset, length and their sum
    being exact integers), fails: it throws, and leaves the
    content and the version as they were, and the history too when it
    held fewer than [maxChanges] entries.  The end of an edit is not
    checked against the text: with an offset and a length of 0 or more,
    [addEdit] succeeds even when the edit runs past the end of the text;
    it returns [true], increments the version, records the range as given,
    and the new content is that of the edit with its two ends clamped to
    the length of the text.  [getText] checks nothing and succeeds for
    every pair of integers: it reads between the two bounds clamped into
    the text, the smaller first. *)
Theorem offsets_are_clamped (this : ScriptSnapshot) (offset length : Z)
    (replacementText : string) :
  let len := JS.length (content this) in
  let offset' := Z.min offset len in
  let end' := Z.min (offset + length) len in
  let result := Snapshot.addEdit this offset length replacementText in
  (offset < 0 \/ (length < 0 /\ exactArgs offset length) ->
   fst result = Throw AssertionError
   /\ content (snd result) = content this
   /\ version (snd result) = version this
   /\ (Z.of_nat (List.length (changes this)) < maxChanges -> snd result = this))
  /\ (0 <= offset -> 0 <= length -> offset + length <= JS.maxExact ->
      fst result = Normal true
      /\ version (snd result) = version this + 1
      /\ (exists older,
            changes (snd result)
            = older ++ [mkTextChangeRange offset (offset + length)
                          (JS.length replacementText)])
      /\ editInBounds this offset' (end' - offset')
      /\ content (snd result)
         = content (snd (Snapshot.addEdit this offset' (end' - offset')
                           replacementText))
      /\ JS.length (content (snd result))
         = offset' + JS.length replacementText + (len - end'))
  /\ (forall start end_ : Z,
        let a := JS.clamp start len in
        let b := JS.clamp end_ len in
        readInBounds this (Z.min a b) (Z.max a b)
        /\ Snapshot.getText this start end_
           = Snapshot.getText this (Z.min a b) (Z.max a b)
        /\ JS.length (Snapshot.getText this start end_) = Z.max a b - Z.min a b).
Proof.
  intros len offset' end' result.
  pose proof (length_nonneg (content this)) as Hlen. fold len in Hlen.
  split; [|split].
  - intros Hbad0.
    assert (Hbad : offset < 0 \/ length < 0) by (destruct Hbad0 as [|[? _]]; auto).
    subst result. rewrite (addEdit_rejected _ _ _ _ Hbad).
    cbn [fst snd content version]. repeat split.
    intros Hroom. unfold roomMade.
    destruct (Z.geb_spec (Z.of_nat (List.length (changes this))) maxChanges);
      [lia|]. destruct this; reflexivity.
  - intros Hoffset Hlength _.
    assert (Hoffset' : 0 <= offset') by (subst offset'; lia).
    assert (Hlength' : 0 <= end' - offset') by (subst offset' end'; lia).
    subst result. rewrite (addEdit_accepted _ _ _ _ Hoffset Hlength).
    rewrite (addEdit_accepted _ _ _ _ Hoffset' Hlength').
    cbn [fst snd content version changes].
    split; [reflexivity|]. split; [reflexivity|].
    split; [eexists; reflexivity|].
    split; [unfold editInBounds; fold len; lia|].
    assert (Hbefore : JS.substring (content this) 0 offset
                      = JS.substring (content this) 0 offset').
    { rewrite substring_clamped, (substring_clamped _ 0 offset'). fold len.
      f_equal. unfold JS.clamp. lia. }
    assert (Hafter : JS.substring (content this) (offset + length) len
                     = JS.substring (content this) (offset' + (end' - offset')) len).
    { rewrite substring_clamped, (substring_clamped _ (offset' + _)). fold len.
      f_equal. unfold JS.clamp. lia. }
    fold len. split.
    + rewrite Hbefore, Hafter. reflexivity.
    + unfold JS.length at 1. rewrite !length_append, !Nat2Z.inj_add.
      fold (JS.length (JS.substring (content this) 0 offset)).
      fold (JS.length (JS.substring (content this) (offset + length) len)).
      fold (JS.length replacementText).
      rewrite !length_JS_substring. fold len. unfold JS.clamp. lia.
  - intros start end_ a b.
    pose proof (clamp_range start len Hlen) as Ha. fold a in Ha.
    pose proof (clamp_range end_ len Hlen) as Hb. fold b in Hb.
    split; [unfold readInBounds; fold len; lia|].
    unfold Snapshot.getText. split.
    + destruct (Z.le_ge_cases a b) as [Hab|Hab].
      * rewrite Z.min_l, Z.max_r by lia. apply substring_clamped.
      * rewrite Z.min_r, Z.max_l by lia.
        rewrite substring_swapped. apply substring_clamped.
    + rewrite length_JS_substring. fold len a b. lia.
Qed.

Lemma offsets_are_clamped_witness :
  (0 <= 1 /\ 0 <= 5 /\ 1 + 5 <= JS.maxExact)
  /\ content (snd (Snapshot.addEdit (Snapshot.new "a.ts" "abc") 1 5 "x"))
     = content (snd (Snapshot.addEdit (Snapshot.new "a.ts" "abc") 1 2 "x"))
  /\ Snapshot.getText (Snapshot.new "a.ts" "abc") 10 2
     = Snapshot.getText (Snapshot.new "a.ts" "abc") 2 3
  /\ (-1 < 0 \/ (0 < 0 /\ exactArgs (-1) 0))
  /\ Snapshot.addEdit (Snapshot.new "a.ts" "abc") (-1) 0 "x"
     = (Throw AssertionError, Snapshot.new "a.ts" "abc").
Proof.
  assert (H1 : 0 <= 1) by lia.
  assert (H5 : 0 <= 5) by lia.
  assert (H6 : 1 + 5 <= JS.maxExact) by (vm_compute; discriminate).
  assert (Hneg : -1 < 0 \/ (0 < 0 /\ exactArgs (-1) 0)) by (left; lia).
  split; [auto|].
  destruct (offsets_are_clamped (Snapshot.new "a.ts" "abc") 1 5 "x")
    as (_ & Hedit & Hread).
  destruct (Hedit H1 H5 H6) as (_ & _ & _ & _ & Hcontent & _).
  split; [exact Hcontent|].
  split; [exact (proj1 (proj2 (Hread 10 2)))|].
  split; [exact Hneg|].
  destruct (offsets_are_clamped (Snapshot.new "a.ts" "abc") (-1) 0 "x")
    as (Hfail & _ & _).
  destruct (Hfail Hneg) as (Hthrow & _ & _ & Hsame).
  rewrite (surjective_pairing (Snapshot.addEdit _ _ _ _)), Hthrow, Hsame;
    [reflexivity|vm_compute; reflexivity].
Defined.

(** ** Changes since a version *)

Lemma netDelta_mergeChange c1 c2 :
  netDelta (mergeChange c1 c2) = netDelta c1 + netDelta c2.
Proof. unfold netDelta, mergeChange. simpl. lia. Qed.

Lemma netDelta_fold rest : forall change0,
  netDelta (fold_left mergeChange rest change0)
  = netDelta change0 + sumNetDelta rest.
Proof.
  induction rest as [|c rest IH]; intros change0; simpl.
  - unfold sumNetDelta. simpl. lia.
  - rewrite IH, netDelta_mergeChange. unfold sumNetDelta. simpl. lia.
Qed.

(** The merged range has the sum of the net length deltas of the changes
    it collapses. *)
Lemma netDelta_collapse cs :
  netDelta (collapseChangesAcrossMultipleVersions cs) = sumNetDelta cs.
Proof.
  destruct cs as [|change0 rest]; [reflexivity|].
  simpl. rewrite netDelta_fold. unfold sumNetDelta. simpl. lia.
Qed.

(** Within the array, [slice] from [length - k] is the last [k] elements. *)
Lemma slice_lastn {A} (l : list A) (k : Z) :
  0 <= k <= Z.of_nat (List.length l) ->
  JS.slice l (Z.of_nat (List.length l) - k) = lastn (Z.to_nat k) l.
Proof.
  intros Hk. unfold JS.slice, lastn.
  destruct (Z.ltb_spec (Z.of_nat (List.length l) - k) 0) as [Hneg|_]; [lia|].
  rewrite firstn_rev, rev_involutive. f_equal. lia.
Qed.

(** Past the end of the array, [slice] is empty. *)
Lemma slice_past_end {A} (l : list A) (start : Z) :
  Z.of_nat (List.length l) <= start -> JS.slice l start = [].
Proof.
  intros Hstart. unfold JS.slice.
  destruct (Z.ltb_spec start 0) as [Hneg|_]; [lia|].
  apply skipn_all2. lia.
Qed.

Lemma length_lastn {A} (l : list A) (k : nat) :
  (k <= List.length l)%nat -> List.length (lastn k l) = k.
Proof.
  intros Hk. unfold lastn.
  rewrite length_rev, length_firstn, length_rev. lia.
Qed.

(** C3, as the claim states it, fails: for a version ahead of the current
    one the call does not return [null].  A fresh snapshot has version 1;
    asked for the changes since version 5 it takes the collapsing branch
    with an empty window and returns the "no change" sentinel, although 5
    is not its version. *)
Lemma since_later_version_not_null :
  let this := Snapshot.new "a.ts" "abc" in
  version this <> 5
  /\ ~ (0 < version this - 5 <= Z.of_nat (List.length (changes this)))
  /\ Snapshot.getTextChangeRangeSinceVersion this 5 <> None
  /\ Snapshot.getTextChangeRangeSinceVersion this 5 = Some unchanged.
Proof.
  cbv zeta. split; [vm_compute; discriminate|].
  split; [vm_compute; intros [H _]; discriminate H|].
  split; [vm_compute; discriminate|reflexivity].
Qed.

(** C3, amended: with k = version - oldVersion and n the length of the
    history, [getTextChangeRangeSinceVersion (oldVersion)] returns the "no
    change" sentinel when k = 0; when 0 < k <= n it returns the last k
    history entries collapsed into one range, whose net length delta is
    the sum of the net length deltas of these k entries; when n < k it
    returns [null]; and when k < 0 it collapses an empty window, which is
    the sentinel again, not [null]. *)
Theorem changes_since_version (this : ScriptSnapshot) (oldVersion : Z) :
  let k := version this - oldVersion in
  let n := Z.of_nat (List.length (changes this)) in
  let result := Snapshot.getTextChangeRangeSinceVersion this oldVersion in
  (k = 0 -> result = Some unchanged)
  /\ (0 < k <= n ->
      let window := lastn (Z.to_nat k) (changes this) in
      result = Some (collapseChangesAcrossMultipleVersions window)
      /\ Z.of_nat (List.length window) = k
      /\ netDelta (collapseChangesAcrossMultipleVersions window)
         = sumNetDelta window)
  /\ (n < k -> result = None)
  /\ (k < 0 -> result = Some unchanged).
Proof.
  intros k n result. subst result.
  unfold Snapshot.getTextChangeRangeSinceVersion. fold n.
  repeat split.
  - intros Hk. destruct (Z.eqb_spec (version this) oldVersion); [reflexivity|lia].
  - destruct H as [Hpos Hle].
    destruct (Z.eqb_spec (version this) oldVersion); [lia|].
    fold k. destruct (Z.leb_spec k n); [|lia].
    subst n. rewrite slice_lastn by lia. reflexivity.
  - destruct H as [Hpos Hle]. rewrite length_lastn; lia.
  - apply netDelta_collapse.
  - intros Hk. destruct (Z.eqb_spec (version this) oldVersion); [lia|].
    fold k. destruct (Z.leb_spec k n); [lia|reflexivity].
  - intros Hk. destruct (Z.eqb_spec (version this) oldVersion); [lia|].
    fold k. destruct (Z.leb_spec k n); [|lia].
    rewrite slice_past_end by lia. reflexivity.
Qed.

Lemma changes_since_version_witness :
  0 < version threeEdits - 1 <= Z.of_nat (List.length (changes threeEdits))
  /\ Snapshot.getTextChangeRangeSinceVersion threeEdits 1
     = Some (mkTextChangeRange 0 4 5)
  /\ Z.of_nat (List.length (changes threeEdits)) < version threeEdits - 0
  /\ Snapshot.getTextChangeRangeSinceVersion threeEdits 0 = None.
Proof.
  destruct (changes_since_version threeEdits 1) as (_ & Hwindow & _).
  destruct (changes_since_version threeEdits 0) as (_ & _ & Hnull & _).
  assert (H1 : 0 < version threeEdits - 1
               <= Z.of_nat (List.length (changes threeEdits)))
    by (vm_compute; split; [reflexivity|discriminate]).
  assert (H0 : Z.of_nat (List.length (changes threeEdits)) < version threeEdits - 0)
    by (vm_compute; reflexivity).
  split; [exact H1|].
  split; [exact (proj1 (Hwindow H1))|].
  split; [exact H0|exact (Hnull H0)].
Defined.

(** ** Characters of a string *)

Lemma substring_one (s : string) : forall n,
  String.substring n 1 s
  = match String.get n s with Some c => String c "" | None => "" end.
Proof.
  induction s as [|c s IH]; intros [|n]; simpl; try reflexivity.
  - destruct s; reflexivity.
  - apply IH.
Qed.

Lemma get_inside (s : string) : forall n,
  (n < String.length s)%nat -> exists c, String.get n s = Some c.
Proof.
  induction s as [|c s IH]; intros [|n] Hn; simpl in *; try lia.
  - eauto.
  - apply IH. lia.
Qed.

Lemma charAt_inside (s : string) (i : Z) :
  0 <= i < JS.length s ->
  exists c, String.get (Z.to_nat i) s = Some c
            /\ JS.charAt s i = String c ""
            /\ JS.at_index s i = Some (String c "").
Proof.
  intros Hi. unfold JS.charAt, JS.at_index.
  destruct (get_inside s (Z.to_nat i)) as [c Hc]; [unfold JS.length in Hi; lia|].
  exists c. rewrite substring_one, Hc.
  destruct (Z.leb_spec 0 i); [|lia]. destruct (Z.ltb_spec i (JS.length s)); [|lia].
  auto.
Qed.

Lemma charAt_outside (s : string) (i : Z) :
  i < 0 \/ JS.length s <= i -> JS.charAt s i = "" /\ JS.at_index s i = None.
Proof.
  intros Hi. unfold JS.charAt, JS.at_index.
  destruct (Z.leb_spec 0 i); destruct (Z.ltb_spec i (JS.length s));
    simpl; auto; lia.
Qed.

(** Inside both bounds, the characters of a substring are those of the
    string. *)
Lemma at_index_substring (s : string) (a b i : Z) :
  0 <= a -> a <= b -> b <= JS.length s -> 0 <= i < b - a ->
  JS.at_index (JS.substring s a b) i = JS.at_index s (a + i).
Proof.
  intros Ha Hab Hb Hi.
  assert (Hlen : JS.length (JS.substring s a b) = b - a).
  { rewrite length_JS_substring. unfold JS.clamp. lia. }
  unfold JS.at_index. rewrite Hlen.
  destruct (Z.leb_spec 0 i); [|lia]. destruct (Z.ltb_spec i (b - a)); [|lia].
  destruct (Z.leb_spec 0 (a + i)); [|lia].
  destruct (Z.ltb_spec (a + i) (JS.length s)); [|lia].
  simpl. f_equal. rewrite !substring_one.
  unfold JS.substring. cbv zeta. unfold JS.clamp.
  rewrite substring_correct1 by lia.
  replace (Z.to_nat i + Z.to_nat _)%nat with (Z.to_nat (a + i)) by lia.
  reflexivity.
Qed.

(** On a string, [validMethodChar] answers and does not throw. *)
Lemma validMethodChar_string (s : string) :
  Host.validMethodChar (Some s) = Normal (acceptedString s).
Proof.
  unfold acceptedString, Host.validMethodChar.
  repeat case_match; congruence.
Qed.

(** ** Position validity *)

(** Whenever fewer than two characters lie between [position - 2] and
    [position], clamped, the call throws: [snapshot[1]] is [undefined] and
    [validMethodChar] calls [toUpperCase] on it. *)
Lemma validPosition_short_snapshot (fileMap : gmap string ScriptSnapshot)
    (fileName : string) (position : Z) :
  position <> 0 ->
  (forall this, fileMap !! fileName = Some this ->
     position < 2 \/ JS.length (content this) < position) ->
  Host.validPosition fileMap fileName position = Throw TypeError.
Proof.
  intros Hnonzero Hshort. unfold Host.validPosition.
  destruct (Z.eqb_spec position 0) as [|_]; [contradiction|].
  unfold Host.snapshotText, Host.getScriptSnapshot.
  destruct (fileMap !! fileName) as [this|] eqn:Hlookup; [|reflexivity].
  specialize (Hshort this eq_refl). cbn [mbind Completion_bind].
  unfold Snapshot.getText.
  assert (Hundefined : JS.at_index
            (JS.substring (content this) (position - 2) position) 1 = None).
  { apply charAt_outside. right. rewrite length_JS_substring.
    pose proof (length_nonneg (content this)). unfold JS.clamp. lia. }
  rewrite Hundefined. reflexivity.
Qed.

(** C5: with the cursor at position 1 the call does not answer "invalid":
    it throws a [TypeError], whatever the file holds. *)
Theorem validPosition_at_one_throws (fileMap : gmap string ScriptSnapshot)
    (fileName : string) :
  Host.validPosition fileMap fileName 1 = Throw TypeError.
Proof.
  apply validPosition_short_snapshot; [discriminate|].
  intros this _. left. lia.
Qed.

(** The one-character text [+], cursor at position 1: [+] is not an
    identifier character, yet the completion request throws. *)
Example completion_after_first_char_throws :
  acceptedString "+" = false
  /\ Host.validPosition (oneFile "+") "a.ts" 1 = Throw TypeError
  /\ Host.getCompletionsAtPosition (engine := sampleEngine) (oneFile "+") "a.ts" 1
     = (Throw TypeError, []).
Proof. repeat split. Qed.

(** Position 0 is invalid: no completion is offered. *)
Lemma validPosition_zero `{LanguageService} (fileMap : gmap string ScriptSnapshot)
    (fileName : string) :
  Host.validPosition fileMap fileName 0 = Normal false
  /\ Host.getCompletionsAtPosition fileMap fileName 0
     = (Normal (mkDetailedAutoCompletionInfo "" []), []).
Proof. split; reflexivity. Qed.

(** From position 2 to the end of the text the rule of the specification
    holds, with [c1] the character at [position - 2] and [c2] the character
    at [position - 1]. *)
Lemma validPosition_inside (fileMap : gmap string ScriptSnapshot)
    (fileName : string) (this : ScriptSnapshot) (position : Z) :
  fileMap !! fileName = Some this ->
  2 <= position <= JS.length (content this) ->
  Host.validPosition fileMap fileName position
  = Normal (validAfter acceptedString
              (JS.charAt (content this) (position - 2))
              (JS.charAt (content this) (position - 1))).
Proof.
  intros Hlookup Hposition. unfold Host.validPosition.
  destruct (Z.eqb_spec position 0) as [|_]; [lia|].
  unfold Host.snapshotText, Host.getScriptSnapshot. rewrite Hlookup.
  cbn [mbind Completion_bind]. unfold Snapshot.getText.
  rewrite !at_index_substring by lia.
  replace (position - 2 + 1) with (position - 1) by lia.
  replace (position - 2 + 0) with (position - 2) by lia.
  destruct (charAt_inside (content this) (position - 2)) as (c1 & _ & Hc1 & Hi1);
    [lia|].
  destruct (charAt_inside (content this) (position - 1)) as (c2 & _ & Hc2 & Hi2);
    [lia|].
  rewrite Hc1, Hc2, Hi1, Hi2, !validMethodChar_string.
  unfold validAfter, strict_eq. cbn [mbind Completion_bind].
  destruct (String.eqb (String c2 "") ".").
  - destruct (acceptedString (String c1 "")); reflexivity.
  - destruct (acceptedString (String c2 "")); reflexivity.
Qed.

(** ** Prefix extraction *)

(** [validMethodChar] on one code unit: the identifier characters of the
    specification, and sharp s, whose upper-case form [SS] lies between
    [A] and [Z] in string order. *)
Lemma acceptedString_char (c : ascii) :
  acceptedString (String c "") = acceptedChar c.
Proof. destruct c as [[] [] [] [] [] [] [] []]; vm_compute; reflexivity. Qed.

Lemma acceptedString_empty : acceptedString "" = false.
Proof. reflexivity. Qed.

(** One turn of the loop of [getPrefix]. *)
Lemma scanBack_unfold (snapshot : string) (index : Z) :
  Host.scanBack snapshot index
  = match Host.validMethodChar (Some (JS.charAt snapshot index)) with
    | Normal true => Host.scanBack snapshot (index - 1)
    | Normal false => Normal index
    | Throw e => Throw e
    end.
Proof.
  rewrite Host.scanBack_equation_1. unfold Host.scanBack_unfold_clause_1.
  destruct (Host.validMethodChar (Some (JS.charAt snapshot index))) as [[|]|e];
    reflexivity.
Qed.

(** [splitRun] cuts the text in two; the run holds identifier characters
    only, and the character before it, if any, is not one. *)
Lemma splitRun_spec (isId : ascii -> bool) (s : string) :
  s = fst (splitRun isId s) +:+ snd (splitRun isId s)
  /\ allChars isId (snd (splitRun isId s)) = true
  /\ match lastChar (fst (splitRun isId s)) with
     | Some b => isId b = false
     | None => fst (splitRun isId s) = ""
     end.
Proof.
  induction s as [|c s (Hcut & Hrun & Hstop)]; simpl; [auto|].
  destruct (splitRun isId s) as [before run]. simpl in *.
  destruct before as [|b before].
  - destruct (isId c) eqn:Hc; simpl.
    + rewrite Hc, Hrun. subst s. auto.
    + subst s. auto.
  - cbn [fst snd]. split; [rewrite Hcut at 1; reflexivity|]. split; [exact Hrun|].
    change (lastChar (String c (String b before)))
      with (lastChar (String b before)).
    destruct (lastChar (String b before)); [exact Hstop|discriminate Hstop].
Qed.

Lemma get_last (s : string) :
  s <> "" -> String.get (String.length s - 1) s = lastChar s.
Proof.
  induction s as [|c s IH]; intros Hne; [contradiction|].
  destruct s as [|c' s]; [reflexivity|].
  change (lastChar (String c (String c' s))) with (lastChar (String c' s)).
  rewrite <- IH by discriminate. simpl. rewrite Nat.sub_0_r. reflexivity.
Qed.

Lemma allChars_get (p : ascii -> bool) (s : string) : forall n c,
  allChars p s = true -> String.get n s = Some c -> p c = true.
Proof.
  induction s as [|c' s IH]; intros n c Hall Hget; [discriminate|].
  simpl in Hall. apply andb_prop in Hall as [Hc Hrest].
  destruct n as [|n]; simpl in Hget.
  - injection Hget as <-. exact Hc.
  - eapply IH; eauto.
Qed.

(** The loop of [getPrefix] walks back over the run and stops on the
    character before it, or at index -1. *)
Lemma scanBack_run (before run : string) :
  allChars acceptedChar run = true ->
  match lastChar before with
  | Some b => acceptedChar b = false
  | None => before = ""
  end ->
  forall j : nat, (j <= String.length run)%nat ->
    Host.scanBack (before +:+ run) (JS.length before + Z.of_nat j - 1)
    = Normal (JS.length before - 1).
Proof.
  intros Hrun Hstop. induction j as [|j IH]; intros Hj.
  - replace (JS.length before + Z.of_nat 0 - 1) with (JS.length before - 1) by lia.
    rewrite scanBack_unfold, validMethodChar_string.
    destruct before as [|b0 before0] eqn:Hbefore.
    + simpl in *. reflexivity.
    + rewrite <- Hbefore in *.
      assert (Hne : before <> "") by (subst before; discriminate).
      assert (Hpos : (0 < String.length before)%nat)
        by (subst before; simpl; lia).
      pose proof (get_last before Hne) as Hlast.
      destruct (lastChar before) as [b|] eqn:Hb; [|contradiction].
      destruct (charAt_inside (before +:+ run) (JS.length before - 1))
        as (c & Hget & Hchar & _).
      { unfold JS.length. rewrite length_append. lia. }
      replace (Z.to_nat (JS.length before - 1)) with (String.length before - 1)%nat
        in Hget by (unfold JS.length; lia).
      rewrite <- append_correct1 in Hget by lia.
      rewrite Hlast in Hget. injection Hget as <-.
      rewrite Hchar, acceptedString_char, Hstop. reflexivity.
  - rewrite scanBack_unfold, validMethodChar_string.
    destruct (charAt_inside (before +:+ run) (JS.length before + Z.of_nat (S j) - 1))
      as (c & Hget & Hchar & _).
    { unfold JS.length. rewrite length_append. lia. }
    replace (Z.to_nat (JS.length before + Z.of_nat (S j) - 1))
      with (j + String.length before)%nat in Hget by (unfold JS.length; lia).
    rewrite <- append_correct2 in Hget.
    rewrite Hchar, acceptedString_char, (allChars_get _ _ _ _ Hrun Hget).
    replace (JS.length before + Z.of_nat (S j) - 1 - 1)
      with (JS.length before + Z.of_nat j - 1) by lia.
    apply IH. lia.
Qed.

Lemma substring_whole (s : string) : String.substring 0 (String.length s) s = s.
Proof. induction s as [|c s IH]; simpl; [reflexivity|]. rewrite IH. reflexivity. Qed.

Lemma substring_append_right (a b : string) :
  JS.substring (a +:+ b) (JS.length a) (JS.length (a +:+ b)) = b.
Proof.
  unfold JS.substring. cbv zeta. unfold JS.clamp, JS.length.
  rewrite length_append.
  replace (Z.to_nat _) with (String.length a) by lia.
  replace (Z.to_nat _) with (String.length b) by lia.
  induction a as [|c a IH]; simpl; [apply substring_whole|exact IH].
Qed.

Lemma eqb_char (b c : ascii) :
  String.eqb (String b "") (String c "") = Ascii.eqb b c.
Proof. simpl. destruct (Ascii.eqb b c); reflexivity. Qed.

(** What [getPrefix] computes, for every text and every position: the
    prefix of the specification, over the characters [validMethodChar]
    accepts, of the text before the position. *)
Lemma getPrefix_prefixOf (fileMap : gmap string ScriptSnapshot)
    (fileName : string) (this : ScriptSnapshot) (position : Z) :
  fileMap !! fileName = Some this ->
  Host.getPrefix fileMap fileName position
  = Normal (prefixOf acceptedChar (JS.substring (content this) 0 position)).
Proof.
  intros Hlookup. unfold Host.getPrefix, Host.snapshotText, Host.getScriptSnapshot.
  rewrite Hlookup. cbn [mbind Completion_bind]. unfold Snapshot.getText.
  set (snapshot := JS.substring (content this) 0 position).
  unfold prefixOf.
  destruct (splitRun_spec acceptedChar snapshot) as (Hcut & Hrun & Hstop).
  destruct (splitRun acceptedChar snapshot) as [before run]. simpl in *.
  assert (Hlen : JS.length snapshot - 1
                 = JS.length before + Z.of_nat (String.length run) - 1).
  { rewrite Hcut at 1. unfold JS.length. rewrite length_append. lia. }
  rewrite Hlen, Hcut, (scanBack_run before run Hrun Hstop) by lia.
  cbn [mbind Completion_bind].
  replace (JS.length before - 1 + 1) with (JS.length before) by lia.
  rewrite substring_append_right.
  destruct before as [|b0 before0] eqn:Hbefore.
  - reflexivity.
  - rewrite <- Hbefore in *.
    assert (Hne : before <> "") by (subst before; discriminate).
    assert (Hpos : (0 < String.length before)%nat) by (subst before; simpl; lia).
    pose proof (get_last before Hne) as Hlast.
    destruct (lastChar before) as [b|] eqn:Hb; [|contradiction].
    destruct (charAt_inside (before +:+ run) (JS.length before - 1))
      as (c & Hget & Hchar & _).
    { unfold JS.length. rewrite length_append. lia. }
    replace (Z.to_nat (JS.length before - 1)) with (String.length before - 1)%nat
      in Hget by (unfold JS.length; lia).
    rewrite <- append_correct1 in Hget by lia.
    rewrite Hlast in Hget. injection Hget as <-.
    rewrite Hchar. unfold newline, isBoundary.
    change "." with (String "."%char "").
    change " " with (String " "%char "").
    rewrite !eqb_char.
    destruct (Ascii.eqb b "." || Ascii.eqb b " " || Ascii.eqb b "010"); reflexivity.
Qed.

(** [splitRun] looks at the test on the characters of the text only. *)
Lemma splitRun_ext (p q : ascii -> bool) (s : string) :
  (forall n c, String.get n s = Some c -> p c = q c) ->
  splitRun p s = splitRun q s.
Proof.
  induction s as [|c s IH]; intros Hagree; [reflexivity|].
  simpl. rewrite IH by (intros n c' Hget; apply (Hagree (S n)); exact Hget).
  rewrite (Hagree 0%nat c eq_refl). reflexivity.
Qed.

(** On a text without sharp s before the position, [getPrefix] is the
    prefix extraction of the specification, over its identifier
    characters. *)
Lemma getPrefix_without_sharp_s (fileMap : gmap string ScriptSnapshot)
    (fileName : string) (this : ScriptSnapshot) (position : Z) :
  fileMap !! fileName = Some this ->
  (forall n, String.get n (JS.substring (content this) 0 position) <> Some sharp_s) ->
  Host.getPrefix fileMap fileName position
  = Normal (prefixOf isIdentifierChar (JS.substring (content this) 0 position)).
Proof.
  intros Hlookup Hplain. rewrite (getPrefix_prefixOf _ _ _ _ Hlookup).
  unfold prefixOf. rewrite (splitRun_ext acceptedChar isIdentifierChar);
    [reflexivity|].
  intros n c Hget. unfold acceptedChar.
  destruct (Ascii.eqb_spec c sharp_s) as [->|_]; [|apply orb_false_r].
  exfalso. exact (Hplain n Hget).
Qed.

(** The two texts of the specification: [object.pr] with the cursor at its
    end has prefix [pr]; [foo bar] with the cursor after [bar] has prefix
    [bar]. *)
Example getPrefix_examples :
  Host.getPrefix (oneFile "object.pr") "a.ts" 9 = Normal "pr"
  /\ Host.getPrefix (oneFile "foo bar") "a.ts" 7 = Normal "bar"
  /\ Host.getPrefix (oneFile "foobar") "a.ts" 6 = Normal ""
  /\ Host.getPrefix (oneFile "foo+bar") "a.ts" 7 = Normal "".
Proof. repeat split. Qed.

(** C6: on a text with a sharp s the code leaves the claim.  Sharp s is
    not one of the identifier characters of the specification, so the scan
    of the specification stops on it and, sharp s being no boundary, the
    prefix is empty; [validMethodChar] accepts it, because its upper-case
    form is the string [SS], and [getPrefix] returns sharp s followed by
    [a]. *)
Theorem getPrefix_accepts_sharp_s :
  isIdentifierChar sharp_s = false
  /\ prefixOf isIdentifierChar sharpText = ""
  /\ Host.validMethodChar (Some (String sharp_s "")) = Normal true
  /\ Host.getPrefix (oneFile sharpText) "a.ts" 4 = Normal (String sharp_s "a").
Proof. repeat split. Qed.

(** ** Pruning the completions *)

Lemma prefixMatch_prefix (_prefix str : string) :
  Host.prefixMatch _prefix str = String.prefix _prefix str.
Proof.
  unfold Host.prefixMatch, JS.indexOf.
  destruct str as [|b str].
  - destruct _prefix; reflexivity.
  - cbn [String.index].
    destruct (String.prefix _prefix (String b str)); [reflexivity|].
    destruct (String.index 0 _prefix str); reflexivity.
Qed.

Lemma prefix_empty (str : string) : String.prefix "" str = true.
Proof. destruct str; reflexivity. Qed.

(** The filtering loop keeps the matching entries, in their order. *)
Lemma pruneStep_filter (_prefix : string) (rawEntries : list CompletionEntry) :
  forall prunedEntries,
    fold_left (Host.pruneStep _prefix) rawEntries prunedEntries
    = prunedEntries
      ++ List.filter (fun e => String.prefix _prefix (name e)) rawEntries.
Proof.
  induction rawEntries as [|e rawEntries IH]; intros prunedEntries; simpl.
  - symmetry. apply app_nil_r.
  - rewrite IH. unfold Host.pruneStep. rewrite prefixMatch_prefix.
    destruct (String.prefix _prefix (name e)); [|reflexivity].
    rewrite <- app_assoc. reflexivity.
Qed.

(** The enrichment loop asks for the details of each entry, in order. *)
Lemma detailStep_map `{LanguageService} (fileMap : gmap string ScriptSnapshot)
    (fileName : string) (position : Z) (abbreviatedEntries : list CompletionEntry) :
  forall acc,
    fold_left (Host.detailStep fileMap fileName position) abbreviatedEntries acc
    = (fst acc
       ++ map (fun e => engine_getCompletionEntryDetails fileMap fileName position
                          (name e)) abbreviatedEntries,
       snd acc
       ++ map (fun e => QueryEntryDetails fileName position (name e))
            abbreviatedEntries).
Proof.
  induction abbreviatedEntries as [|e l IH]; intros [details calls]; simpl.
  - rewrite !app_nil_r. reflexivity.
  - rewrite IH. simpl. rewrite <- !app_assoc. reflexivity.
Qed.

(** C7: the pruned completions are exactly the entries of the engine whose
    name starts with the prefix, compared character by character, in the
    order of the engine's answer; the detailed result holds the details of
    these entries, in the same order; and the empty prefix keeps every
    entry. *)
Theorem prefix_filter_keeps_matching `{LanguageService}
    (fileMap : gmap string ScriptSnapshot) (fileName : string) (position : Z)
    (_prefix : string) :
  let raw := rawEntriesAt fileMap fileName position in
  let kept := List.filter (fun e => String.prefix _prefix (name e)) raw in
  fst (Host.getExplicitPrunedCompletionsAtPosition fileMap fileName position _prefix)
  = Normal (mkAutoCompletionInfo (Some kept))
  /\ fst (Host.getDetailedExplicitPrunedCompletionsAtPosition fileMap fileName
            position _prefix)
     = Normal (mkDetailedAutoCompletionInfo _prefix
                 (map (fun e => engine_getCompletionEntryDetails fileMap fileName
                                  position (name e)) kept))
  /\ fst (Host.getExplicitPrunedCompletionsAtPosition fileMap fileName position "")
     = Normal (mkAutoCompletionInfo (Some raw)).
Proof.
  intros raw kept.
  assert (Hpruned : forall p,
    Host.getExplicitPrunedCompletionsAtPosition fileMap fileName position p
    = (Normal (mkAutoCompletionInfo
                 (Some (List.filter (fun e => String.prefix p (name e)) raw))),
       [QueryCompletions fileName position false])).
  { intros p. unfold Host.getExplicitPrunedCompletionsAtPosition.
    subst raw. unfold rawEntriesAt.
    destruct (engine_getCompletionsAtPosition fileMap fileName position false);
      [|reflexivity].
    rewrite pruneStep_filter. reflexivity. }
  split; [rewrite Hpruned; reflexivity|]. split.
  - unfold Host.getDetailedExplicitPrunedCompletionsAtPosition.
    rewrite Hpruned. cbn [tbind abbreviated_entries].
    rewrite detailStep_map. reflexivity.
  - rewrite Hpruned. cbn [fst]. do 3 f_equal.
    clear Hpruned kept. generalize raw. clear raw.
    induction raw as [|e raw IH]; [reflexivity|].
    simpl. rewrite prefix_empty, IH. reflexivity.
Qed.

(** The entries [print], [process], [foo] of the specification: the prefix
    [pr] keeps the first two, the empty prefix keeps all three. *)
Example prefix_filter_example :
  fst (Host.getExplicitPrunedCompletionsAtPosition (engine := sampleEngine)
         (oneFile " pr") "a.ts" 3 "pr")
  = Normal (mkAutoCompletionInfo
              (Some [mkCompletionEntry "print" "function";
                     mkCompletionEntry "process" "var"]))
  /\ fst (Host.getExplicitPrunedCompletionsAtPosition (engine := sampleEngine)
            (oneFile " pr") "a.ts" 3 "")
     = Normal (mkAutoCompletionInfo (Some sampleEntries))
  /\ fst (Host.getCompletionsAtPosition (engine := sampleEngine)
            (oneFile " pr") "a.ts" 3)
     = Normal (mkDetailedAutoCompletionInfo "pr" ["print"; "process"]).
Proof. repeat split. Qed.

(** ** The reject list and the engine's "no completions" *)

Lemma knownToBreak_dollar (prefix : string) :
  Host.knownToBreak prefix = String.eqb "$" prefix.
Proof. unfold Host.knownToBreak. simpl. apply orb_false_r. Qed.

(** C8: at a valid position whose prefix is exactly [$], the completion
    request returns the prefix [$] with no entry, and sends no query to the
    engine, whatever engine is plugged in. *)
Theorem dollar_prefix_never_reaches_engine `{LanguageService}
    (fileMap : gmap string ScriptSnapshot) (file0 : string) (position : Z) :
  Host.validPosition fileMap file0 position = Normal true ->
  Host.getPrefix fileMap file0 position = Normal "$" ->
  Host.getCompletionsAtPosition fileMap file0 position
  = (Normal (mkDetailedAutoCompletionInfo "$" []), []).
Proof.
  intros Hvalid Hprefix.
  unfold Host.getCompletionsAtPosition,
    Host.getDetailedImplicitlyPrunedCompletionsAtPosition.
  rewrite Hvalid, Hprefix. reflexivity.
Qed.

Lemma dollar_prefix_never_reaches_engine_witness :
  Host.validPosition (oneFile " $") "a.ts" 2 = Normal true
  /\ Host.getPrefix (oneFile " $") "a.ts" 2 = Normal "$"
  /\ engine_getCompletionsAtPosition (LanguageService := sampleEngine)
       (oneFile " $") "a.ts" 2 false
     = Some (mkCompletionInfo sampleEntries)
  /\ Host.getCompletionsAtPosition (engine := sampleEngine) (oneFile " $") "a.ts" 2
     = (Normal (mkDetailedAutoCompletionInfo "$" []), []).
Proof.
  assert (Hvalid : Host.validPosition (oneFile " $") "a.ts" 2 = Normal true)
    by reflexivity.
  assert (Hprefix : Host.getPrefix (oneFile " $") "a.ts" 2 = Normal "$")
    by reflexivity.
  split; [exact Hvalid|]. split; [exact Hprefix|]. split; [reflexivity|].
  exact (dollar_prefix_never_reaches_engine (H := sampleEngine)
           (oneFile " $") "a.ts" 2 Hvalid Hprefix).
Defined.

(** The entry array [getExplicitPrunedCompletionsAtPosition] returns is
    never [null]: the test for [null] that follows the call never holds. *)
Lemma pruned_entries_never_null `{LanguageService}
    (fileMap : gmap string ScriptSnapshot) (fileName : string) (position : Z)
    (_prefix : string) :
  exists info calls,
    Host.getExplicitPrunedCompletionsAtPosition fileMap fileName position _prefix
    = (Normal info, calls)
    /\ abbreviated_entries info <> None.
Proof.
  unfold Host.getExplicitPrunedCompletionsAtPosition.
  destruct (engine_getCompletionsAtPosition fileMap fileName position false);
    eexists; eexists; (split; [reflexivity|discriminate]).
Qed.

(** When the engine has no completions at a valid position, the request
    succeeds with no entry, and with the prefix it computed. *)
Lemma no_completions_keeps_prefix `{LanguageService}
    (fileMap : gmap string ScriptSnapshot) (file0 : string) (position : Z)
    (_prefix : string) :
  Host.validPosition fileMap file0 position = Normal true ->
  Host.getPrefix fileMap file0 position = Normal _prefix ->
  Host.knownToBreak _prefix = false ->
  engine_getCompletionsAtPosition fileMap file0 position false = None ->
  Host.getCompletionsAtPosition fileMap file0 position
  = (Normal (mkDetailedAutoCompletionInfo _prefix []),
     [QueryCompletions file0 position false]).
Proof.
  intros Hvalid Hprefix Hknown Hnone.
  unfold Host.getCompletionsAtPosition,
    Host.getDetailedImplicitlyPrunedCompletionsAtPosition.
  rewrite Hvalid, Hprefix. cbn [lift tbind]. rewrite Hknown.
  unfold Host.getDetailedExplicitPrunedCompletionsAtPosition,
    Host.getExplicitPrunedCompletionsAtPosition.
  rewrite Hnone. reflexivity.
Qed.

(** C9: on the text [x.ab] with the cursor at its end, a valid position,
    an engine without completions yields no entry, no error, and the
    prefix [ab], not the empty prefix. *)
Theorem no_completions_prefix_not_empty :
  Host.validPosition (oneFile "x.ab") "a.ts" 4 = Normal true
  /\ engine_getCompletionsAtPosition (LanguageService := silentEngine)
       (oneFile "x.ab") "a.ts" 4 false = None
  /\ Host.getCompletionsAtPosition (engine := silentEngine) (oneFile "x.ab") "a.ts" 4
     = (Normal (mkDetailedAutoCompletionInfo "ab" []),
        [QueryCompletions "a.ts" 4 false]).
Proof. repeat split. Qed.

(** * Further properties of the module *)

(** ** Reading the text *)

Lemma substring_nothing (s : string) : forall n, String.substring n 0 s = "".
Proof. induction s as [|c s IH]; intros [|n]; simpl; auto. Qed.

Lemma substring_split (s : string) : forall n m1 m2,
  String.substring n (m1 + m2) s
  = String.substring n m1 s +:+ String.substring (n + m1) m2 s.
Proof.
  induction s as [|c s IH]; intros n m1 m2.
  - destruct n, m1, m2; reflexivity.
  - destruct n as [|n].
    + destruct m1 as [|m1]; [reflexivity|].
      simpl. rewrite (IH 0%nat m1 m2). reflexivity.
    + simpl. apply IH.
Qed.

Lemma substring_append_left_nat (a x : string) :
  String.substring 0 (String.length a) (a +:+ x) = a.
Proof.
  induction a as [|c a IH]; simpl; [apply substring_nothing|].
  rewrite IH. reflexivity.
Qed.

Lemma substring_append_skip_nat (a x : string) (n m : nat) :
  String.substring (String.length a + n) m (a +:+ x) = String.substring n m x.
Proof. induction a as [|c a IH]; simpl; auto. Qed.

Lemma substring_in_bounds (s : string) (a b : Z) :
  0 <= a -> a <= b -> b <= JS.length s ->
  JS.substring s a b = String.substring (Z.to_nat a) (Z.to_nat (b - a)) s.
Proof.
  intros Ha Hab Hb. unfold JS.substring, JS.clamp. cbv zeta. f_equal; lia.
Qed.

Lemma JS_length_append (a b : string) :
  JS.length (a +:+ b) = JS.length a + JS.length b.
Proof. unfold JS.length. rewrite length_append. lia. Qed.

Lemma substring_append_left (a x : string) :
  JS.substring (a +:+ x) 0 (JS.length a) = a.
Proof.
  pose proof (length_nonneg a). pose proof (length_nonneg x).
  rewrite substring_in_bounds by (rewrite ?JS_length_append; lia).
  replace (Z.to_nat (JS.length a - 0)) with (String.length a)
    by (unfold JS.length; lia).
  apply substring_append_left_nat.
Qed.

Lemma substring_append_skip (a x : string) (i j : Z) :
  0 <= i -> 0 <= j ->
  JS.substring (a +:+ x) (JS.length a + i) (JS.length a + j) = JS.substring x i j.
Proof.
  intros Hi Hj. pose proof (length_nonneg a). pose proof (length_nonneg x).
  unfold JS.substring. cbv zeta. rewrite JS_length_append.
  set (fi := JS.clamp i (JS.length x)). set (fj := JS.clamp j (JS.length x)).
  assert (Hfi : JS.clamp (JS.length a + i) (JS.length a + JS.length x)
                = JS.length a + fi) by (subst fi; unfold JS.clamp; lia).
  assert (Hfj : JS.clamp (JS.length a + j) (JS.length a + JS.length x)
                = JS.length a + fj) by (subst fj; unfold JS.clamp; lia).
  rewrite Hfi, Hfj.
  assert (0 <= fi) by (subst fi; unfold JS.clamp; lia).
  assert (0 <= fj) by (subst fj; unfold JS.clamp; lia).
  replace (Z.to_nat (Z.min (JS.length a + fi) (JS.length a + fj)))
    with (String.length a + Z.to_nat (Z.min fi fj))%nat
    by (unfold JS.length; lia).
  replace (Z.max (JS.length a + fi) (JS.length a + fj)
           - Z.min (JS.length a + fi) (JS.length a + fj))
    with (Z.max fi fj - Z.min fi fj) by lia.
  apply substring_append_skip_nat.
Qed.

(** Reads that meet inside the text concatenate. *)
Lemma getText_split (this : ScriptSnapshot) (a b c : Z) :
  0 <= a -> a <= b -> b <= c -> c <= Snapshot.getLength this ->
  Snapshot.getText this 0 (Snapshot.getLength this) = content this
  /\ Snapshot.getText this a b +:+ Snapshot.getText this b c
     = Snapshot.getText this a c.
Proof.
  intros Ha Hab Hbc Hc. unfold Snapshot.getText, Snapshot.getLength in *.
  pose proof (length_nonneg (content this)) as Hlen. split.
  - rewrite substring_in_bounds by lia.
    replace (Z.to_nat (JS.length (content this) - 0))
      with (String.length (content this)) by (unfold JS.length; lia).
    apply substring_whole.
  - rewrite !substring_in_bounds by lia.
    replace (Z.to_nat (c - a)) with (Z.to_nat (b - a) + Z.to_nat (c - b))%nat by lia.
    rewrite substring_split. do 2 f_equal. lia.
Qed.

(** X1: reading the whole text gives back the content, and two reads that
    meet inside the text concatenate to the read that spans both. *)
Theorem getText_concat (this : ScriptSnapshot) (a b c : Z) :
  0 <= a -> a <= b -> b <= c -> c <= Snapshot.getLength this ->
  Snapshot.getText this 0 (Snapshot.getLength this) = content this
  /\ Snapshot.getText this a b +:+ Snapshot.getText this b c
     = Snapshot.getText this a c.
Proof. exact (getText_split this a b c). Qed.

Lemma getText_concat_witness :
  Snapshot.getText (Snapshot.new "a.ts" "abcdef") 1 3
  +:+ Snapshot.getText (Snapshot.new "a.ts" "abcdef") 3 6
  = Snapshot.getText (Snapshot.new "a.ts" "abcdef") 1 6.
Proof.
  apply (getText_concat (Snapshot.new "a.ts" "abcdef") 1 3 6);
    vm_compute; discriminate.
Defined.

(** ** One edit *)

(** An edit within the text, piece by piece. *)
Lemma addEdit_splice (this : ScriptSnapshot) (offset length : Z)
    (replacementText : string) :
  0 <= offset -> 0 <= length -> offset + length <= Snapshot.getLength this ->
  let this' := snd (Snapshot.addEdit this offset length replacementText) in
  Snapshot.getLength this'
  = Snapshot.getLength this - length + JS.length replacementText
  /\ Snapshot.getText this' 0 offset = Snapshot.getText this 0 offset
  /\ Snapshot.getText this' offset (offset + JS.length replacementText)
     = replacementText
  /\ Snapshot.getText this' (offset + JS.length replacementText)
       (Snapshot.getLength this')
     = Snapshot.getText this (offset + length) (Snapshot.getLength this).
Proof.
  intros Hoffset Hlength Hend this'. subst this'.
  rewrite (addEdit_accepted _ _ _ _ Hoffset Hlength).
  unfold Snapshot.getLength, Snapshot.getText in *.
  cbn [snd content].
  set (len := JS.length (content this)) in *.
  set (before := JS.substring (content this) 0 offset).
  set (after := JS.substring (content this) (offset + length) len).
  pose proof (length_nonneg (content this)) as Hlen. fold len in Hlen.
  pose proof (length_nonneg replacementText) as Htext.
  assert (Hbefore : JS.length before = offset).
  { subst before. rewrite length_JS_substring. fold len. unfold JS.clamp. lia. }
  assert (Hafter : JS.length after = len - (offset + length)).
  { subst after. rewrite length_JS_substring. fold len. unfold JS.clamp. lia. }
  split; [rewrite !JS_length_append; lia|].
  split; [rewrite <- Hbefore at 1; apply substring_append_left|].
  split.
  - rewrite <- Hbefore at 1 2.
    replace (JS.length before) with (JS.length before + 0) at 1 by lia.
    rewrite substring_append_skip by lia. apply substring_append_left.
  - rewrite <- Hbefore at 1. rewrite JS_length_append.
    rewrite substring_append_skip
      by (rewrite ?JS_length_append; pose proof (length_nonneg after); lia).
    apply substring_append_right.
Qed.

(** X2: an edit within the text splices it.  The text before the offset
    is kept, the replacement text reads back at the offset, the text after
    the replaced range follows it, and the length changes by the length of
    the replacement minus the length replaced. *)
Theorem addEdit_splices (this : ScriptSnapshot) (offset length : Z)
    (replacementText : string) :
  0 <= offset -> 0 <= length -> offset + length <= Snapshot.getLength this ->
  let this' := snd (Snapshot.addEdit this offset length replacementText) in
  Snapshot.getLength this'
  = Snapshot.getLength this - length + JS.length replacementText
  /\ Snapshot.getText this' 0 offset = Snapshot.getText this 0 offset
  /\ Snapshot.getText this' offset (offset + JS.length replacementText)
     = replacementText
  /\ Snapshot.getText this' (offset + JS.length replacementText)
       (Snapshot.getLength this')
     = Snapshot.getText this (offset + length) (Snapshot.getLength this).
Proof. exact (addEdit_splice this offset length replacementText). Qed.

Lemma addEdit_splices_witness :
  Snapshot.getText (snd (Snapshot.addEdit (Snapshot.new "a.ts" "abcdef") 1 2 "xyz"))
    1 (1 + JS.length "xyz") = "xyz".
Proof.
  refine (proj1 (proj2 (proj2
    (addEdit_splices (Snapshot.new "a.ts" "abcdef") 1 2 "xyz" _ _ _))));
    vm_compute; discriminate.
Defined.

(** X3: an edit that replaces nothing by nothing leaves the content as it
    is and still counts as a change: the version goes up by one and the
    history gets a new entry. *)
Theorem empty_edit_still_counts (this : ScriptSnapshot) (offset : Z) :
  0 <= offset ->
  let this' := snd (Snapshot.addEdit this offset 0 "") in
  content this' = content this
  /\ version this' = version this + 1
  /\ this' <> this
  /\ exists older, changes this' = older ++ [mkTextChangeRange offset offset 0].
Proof.
  intros Hoffset this'. subst this'.
  pose proof (length_nonneg (content this)) as Hlen.
  rewrite (addEdit_accepted this offset 0 "" Hoffset (Z.le_refl 0)).
  cbn [snd content version changes].
  split; [|split; [reflexivity|split]].
  - change ("" +:+ ?x) with x. rewrite Z.add_0_r.
    rewrite (substring_clamped _ 0 offset), (substring_clamped _ offset).
    set (k := JS.clamp offset (JS.length (content this))).
    assert (Hk : 0 <= k <= JS.length (content this))
      by (subst k; unfold JS.clamp; lia).
    replace (JS.clamp 0 _) with 0 by (unfold JS.clamp; lia).
    replace (JS.clamp (JS.length (content this)) _)
      with (JS.length (content this)) by (unfold JS.clamp; lia).
    destruct (getText_split this 0 k (JS.length (content this)))
      as [Hwhole Hconcat]; try (unfold Snapshot.getLength; lia).
    unfold Snapshot.getText, Snapshot.getLength in *.
    rewrite Hconcat. exact Hwhole.
  - intros Heq. apply (f_equal version) in Heq. simpl in Heq. lia.
  - eexists. rewrite Z.add_0_r. reflexivity.
Qed.

Lemma empty_edit_still_counts_witness :
  content (snd (Snapshot.addEdit (Snapshot.new "a.ts" "abcdef") 3 0 "")) = "abcdef"
  /\ version (snd (Snapshot.addEdit (Snapshot.new "a.ts" "abcdef") 3 0 "")) = 2.
Proof.
  assert (H3 : 0 <= 3) by lia.
  destruct (empty_edit_still_counts (Snapshot.new "a.ts" "abcdef") 3 H3)
    as (Hcontent & Hversion & _).
  split; [exact Hcontent|exact Hversion].
Defined.

(** ** Edits in sequence and the history *)

Lemma runOps_edit_cons (e : Edit) (edits : list Edit) (this : ScriptSnapshot) :
  runOps (map opOfEdit (e :: edits)) this
  = runOps (map opOfEdit edits) (runOp this (opOfEdit e)).
Proof. reflexivity. Qed.

Lemma changes_runOp_edit (e : Edit) (this : ScriptSnapshot) :
  editSucceeds e ->
  changes (runOp this (opOfEdit e))
  = (if Z.of_nat (List.length (changes this)) >=? maxChanges
     then [] else changes this) ++ [rangeOfEdit e]
  /\ version (runOp this (opOfEdit e)) = version this + 1.
Proof.
  destruct e as [[offset length] text]. intros [Hoffset Hlength].
  cbn [opOfEdit runOp rangeOfEdit].
  rewrite (addEdit_accepted _ _ _ _ Hoffset Hlength). split; reflexivity.
Qed.

(** With room in the history, edits that go through append to it. *)
Lemma edits_append_history (edits : list Edit) (this : ScriptSnapshot) :
  List.Forall editSucceeds edits ->
  Z.of_nat (List.length (changes this)) + Z.of_nat (List.length edits) <= maxChanges ->
  changes (runOps (map opOfEdit edits) this)
  = changes this ++ map rangeOfEdit edits
  /\ version (runOps (map opOfEdit edits) this)
     = version this + Z.of_nat (List.length edits).
Proof.
  revert this. induction edits as [|e edits IH]; intros this Hok Hroom.
  - simpl. rewrite app_nil_r. split; [reflexivity|lia].
  - simpl List.length in Hroom. rewrite runOps_edit_cons.
    apply List.Forall_cons_iff in Hok as [He Hok].
    destruct (changes_runOp_edit e this He) as [Hstep0 Hv].
    assert (Hstep : changes (runOp this (opOfEdit e)) = changes this ++ [rangeOfEdit e]).
    { rewrite Hstep0.
      destruct (Z.geb_spec (Z.of_nat (List.length (changes this))) maxChanges);
        [lia|reflexivity]. }
    destruct (IH (runOp this (opOfEdit e)) Hok) as [Hchanges Hversion].
    { rewrite Hstep, length_app. simpl. lia. }
    rewrite Hchanges, Hversion, Hstep, Hv, <- app_assoc.
    simpl. split; [reflexivity|lia].
Qed.

Lemma editAccepted_succeeds (edits : list Edit) :
  List.Forall editAccepted edits -> List.Forall editSucceeds edits.
Proof.
  apply List.Forall_impl. intros [[offset length] text] (Ho & Hl & _).
  split; assumption.
Qed.

Lemma editsInBounds_succeed (edits : list Edit) : forall this,
  editsInBounds this edits -> List.Forall editSucceeds edits.
Proof.
  induction edits as [|[[offset length] text] edits IH]; intros this Hbounds;
    [constructor|].
  destruct Hbounds as (Hoffset & Hlength & _ & Hrest).
  constructor; [split; assumption|]. exact (IH _ Hrest).
Qed.

(** X4: while the history has room, it records the edits that [addEdit]
    accepts in the order they are made, oldest first, after the entries it
    held, and each such edit adds one to the version. *)
Theorem edits_recorded_in_order (edits : list Edit) (this : ScriptSnapshot) :
  List.Forall editAccepted edits ->
  Z.of_nat (List.length (changes this)) + Z.of_nat (List.length edits) <= maxChanges ->
  changes (runOps (map opOfEdit edits) this)
  = changes this ++ map rangeOfEdit edits
  /\ version (runOps (map opOfEdit edits) this)
     = version this + Z.of_nat (List.length edits).
Proof.
  intros Hok. exact (edits_append_history edits this (editAccepted_succeeds _ Hok)).
Qed.

Lemma edits_recorded_in_order_witness :
  changes threeEdits
  = [mkTextChangeRange 1 3 3; mkTextChangeRange 0 1 0; mkTextChangeRange 4 4 1].
Proof.
  refine (proj1 (edits_recorded_in_order [(1, 2, "xyz"); (0, 1, ""); (4, 0, "q")]
                   (Snapshot.new "a.ts" "abcdef") _ _)).
  - repeat constructor; vm_compute; discriminate.
  - vm_compute. discriminate.
Defined.

Lemma sumNetDelta_app (cs ds : list TextChangeRange) :
  sumNetDelta (cs ++ ds) = sumNetDelta cs + sumNetDelta ds.
Proof.
  unfold sumNetDelta. induction cs as [|c cs IH]; simpl; [reflexivity|].
  rewrite IH. lia.
Qed.

(** The length of the content over edits within the text. *)
Lemma length_after_edits (edits : list Edit) (this : ScriptSnapshot) :
  editsInBounds this edits ->
  Snapshot.getLength (runOps (map opOfEdit edits) this)
  = Snapshot.getLength this + sumNetDelta (map rangeOfEdit edits).
Proof.
  revert this. induction edits as [|[[offset length] text] edits IH];
    intros this Hbounds.
  - unfold sumNetDelta. simpl. lia.
  - destruct Hbounds as (Hoffset & Hlength & Hend & Hrest).
    rewrite runOps_edit_cons. cbn [opOfEdit runOp].
    rewrite (IH _ Hrest).
    destruct (addEdit_splice this offset length text Hoffset Hlength Hend)
      as [Hlen _].
    rewrite Hlen. change (map rangeOfEdit ((offset, length, text) :: edits))
      with ([rangeOfEdit (offset, length, text)] ++ map rangeOfEdit edits).
    rewrite sumNetDelta_app. unfold sumNetDelta at 2, netDelta. simpl. lia.
Qed.

(** X5: over a sequence of edits that each lie within the text they are
    applied to, the length of the content changes by the sum of the net
    length deltas of the ranges recorded for them. *)
Theorem content_length_follows_edits (edits : list Edit) (this : ScriptSnapshot) :
  editsInBounds this edits ->
  Snapshot.getLength (runOps (map opOfEdit edits) this)
  = Snapshot.getLength this + sumNetDelta (map rangeOfEdit edits).
Proof. exact (length_after_edits edits this). Qed.

Lemma content_length_follows_edits_witness :
  Snapshot.getLength threeEdits = Snapshot.getLength (Snapshot.new "a.ts" "abcdef") + 1.
Proof.
  refine (content_length_follows_edits [(1, 2, "xyz"); (0, 1, ""); (4, 0, "q")]
            (Snapshot.new "a.ts" "abcdef") _).
  vm_compute. intuition discriminate.
Defined.

Lemma lastn_app {A} (l1 l2 : list A) : lastn (List.length l2) (l1 ++ l2) = l2.
Proof.
  unfold lastn. rewrite rev_app_distr.
  rewrite <- (length_rev l2), firstn_app, firstn_all, Nat.sub_diag.
  simpl. rewrite app_nil_r. apply rev_involutive.
Qed.

(** X6: after edits that lie within the text and fit in the history, the
    changes asked since the version before them are available, and the
    merged range has the net length delta by which the content grew. *)
Theorem delta_since_matches_content (edits : list Edit) (this : ScriptSnapshot) :
  editsInBounds this edits ->
  Z.of_nat (List.length (changes this)) + Z.of_nat (List.length edits) <= maxChanges ->
  let this' := runOps (map opOfEdit edits) this in
  exists range,
    Snapshot.getTextChangeRangeSinceVersion this' (version this) = Some range
    /\ netDelta range = Snapshot.getLength this' - Snapshot.getLength this.
Proof.
  intros Hbounds Hroom this'. subst this'.
  destruct (edits_append_history edits this (editsInBounds_succeed _ _ Hbounds) Hroom)
    as [Hchanges Hversion].
  rewrite (length_after_edits edits this Hbounds).
  destruct edits as [|e edits].
  - exists unchanged. simpl in *. unfold Snapshot.getTextChangeRangeSinceVersion.
    rewrite Z.eqb_refl. split; [reflexivity|].
    unfold sumNetDelta, netDelta. simpl. lia.
  - set (es := e :: edits) in *.
    exists (collapseChangesAcrossMultipleVersions (map rangeOfEdit es)).
    split; [|rewrite netDelta_collapse; lia].
    unfold Snapshot.getTextChangeRangeSinceVersion.
    rewrite Hversion, Hchanges.
    destruct (Z.eqb_spec (version this + Z.of_nat (List.length es)) (version this))
      as [Heq|_]; [subst es; simpl in Heq; lia|].
    replace (version this + Z.of_nat (List.length es) - version this)
      with (Z.of_nat (List.length es)) by lia.
    destruct (Z.leb_spec (Z.of_nat (List.length es))
                (Z.of_nat (List.length (changes this ++ map rangeOfEdit es))))
      as [_|Hshort]; [|rewrite length_app, length_map in Hshort; lia].
    rewrite slice_lastn by (rewrite length_app, length_map; lia).
    rewrite Nat2Z.id. rewrite <- (length_map rangeOfEdit es) at 1.
    rewrite lastn_app. reflexivity.
Qed.

Lemma delta_since_matches_content_witness :
  exists range,
    Snapshot.getTextChangeRangeSinceVersion threeEdits 1 = Some range
    /\ netDelta range = 1.
Proof.
  refine (delta_since_matches_content [(1, 2, "xyz"); (0, 1, ""); (4, 0, "q")]
            (Snapshot.new "a.ts" "abcdef") _ _).
  - vm_compute. intuition discriminate.
  - vm_compute. discriminate.
Defined.

(** X7: right after an edit that [addEdit] accepts, the changes since
    the version before it are available and are the range of that edit,
    also when the edit found the history full and cleared it. *)
Theorem delta_since_previous_version (this : ScriptSnapshot) (offset length : Z)
    (replacementText : string) :
  0 <= offset -> 0 <= length -> offset + length <= JS.maxExact ->
  Snapshot.getTextChangeRangeSinceVersion
    (snd (Snapshot.addEdit this offset length replacementText)) (version this)
  = Some (mkTextChangeRange offset (offset + length) (JS.length replacementText)).
Proof.
  intros Hoffset Hlength _.
  unfold Snapshot.getTextChangeRangeSinceVersion.
  rewrite (addEdit_accepted _ _ _ _ Hoffset Hlength).
  cbn [snd version changes].
  destruct (Z.eqb_spec (version this + 1) (version this)) as [Heq|_]; [lia|].
  replace (version this + 1 - version this) with 1 by lia.
  set (older := roomMade this).
  set (range := mkTextChangeRange offset (offset + length) (JS.length replacementText)).
  destruct (Z.leb_spec 1 (Z.of_nat (List.length (older ++ [range]))))
    as [_|Hshort]; [|rewrite length_app in Hshort; simpl in Hshort; lia].
  rewrite slice_lastn by (rewrite length_app; simpl; lia).
  change (Z.to_nat 1) with (List.length [range]). rewrite lastn_app. reflexivity.
Qed.

Lemma delta_since_previous_version_witness :
  let full := runOps (map opOfEdit (repeat ((0, 0, "x") : Edit) 100))
                (Snapshot.new "a.ts" "abc") in
  Snapshot.getTextChangeRangeSinceVersion (snd (Snapshot.addEdit full 2 1 "yz"))
    (version full)
  = Some (mkTextChangeRange 2 3 2).
Proof.
  cbv zeta.
  refine (delta_since_previous_version _ 2 1 "yz" _ _ _); vm_compute; discriminate.
Defined.

(** X8: a full replacement of the content forgets the history: the
    changes since any earlier version are unknown ([null]), and only the
    new version itself answers "no change". *)
Theorem updateContent_forgets_history (this : ScriptSnapshot) (content0 : string)
    (oldVersion : Z) :
  oldVersion <= version this ->
  let this' := snd (Snapshot.updateContent this content0 true) in
  Snapshot.getTextChangeRangeSinceVersion this' oldVersion = None
  /\ Snapshot.getTextChangeRangeSinceVersion this' (version this') = Some unchanged.
Proof.
  intros Hold this'. subst this'. unfold Snapshot.getTextChangeRangeSinceVersion.
  simpl. rewrite Z.eqb_refl. split; [|reflexivity].
  destruct (Z.eqb_spec (version this + 1) oldVersion) as [Heq|_]; [lia|].
  change (Z.of_nat 0) with 0.
  destruct (Z.leb_spec (version this + 1 - oldVersion) 0); [lia|reflexivity].
Qed.

Lemma updateContent_forgets_history_witness :
  Snapshot.getTextChangeRangeSinceVersion
    (snd (Snapshot.updateContent threeEdits "abcdef" true)) 3 = None.
Proof.
  refine (proj1 (updateContent_forgets_history threeEdits "abcdef" 3 _)).
  vm_compute. discriminate.
Defined.

(** ** The open flag *)

Lemma addEdit_keeps_flag this offset length replacementText :
  open (snd (Snapshot.addEdit this offset length replacementText)) = open this
  /\ file (snd (Snapshot.addEdit this offset length replacementText)) = file this.
Proof.
  destruct (addEdit_cases offset length) as [[Ho Hl]|Hbad].
  - rewrite (addEdit_accepted _ _ _ _ Ho Hl). split; reflexivity.
  - rewrite (addEdit_rejected _ _ _ _ Hbad). split; reflexivity.
Qed.

(** Two snapshots with the same text: version, content and history. *)
Lemma runOp_same_text (s1 s2 : ScriptSnapshot) (op : Op) :
  version s1 = version s2 -> content s1 = content s2 -> changes s1 = changes s2 ->
  (isMutation op = false ->
   version (runOp s1 op) = version s2
   /\ content (runOp s1 op) = content s2 /\ changes (runOp s1 op) = changes s2)
  /\ (isMutation op = true ->
      content (runOp s1 op) = content (runOp s2 op)
      /\ changes (runOp s1 op) = changes (runOp s2 op)
      /\ version (runOp s1 op) = version (runOp s2 op)).
Proof.
  intros Hv Hc Hh.
  destruct op as [content0|offset length text| |]; cbn [isMutation runOp];
    (split; [intros Hop|intros Hop]); try discriminate Hop.
  - simpl. rewrite ?Hv, ?Hc, ?Hh. repeat split.
  - destruct (addEdit_cases offset length) as [[Ho Hl]|Hbad].
    + rewrite !(addEdit_accepted _ _ _ _ Ho Hl). unfold roomMade. simpl.
      rewrite ?Hv, ?Hc, ?Hh. repeat split.
    + rewrite !(addEdit_rejected _ _ _ _ Hbad). unfold roomMade. simpl.
      rewrite ?Hv, ?Hc, ?Hh. repeat split.
  - simpl. auto.
  - simpl. auto.
Qed.

Lemma runOps_same_text (ops : list Op) : forall s1 s2,
  version s1 = version s2 -> content s1 = content s2 -> changes s1 = changes s2 ->
  version (runOps ops s1) = version (runOps (List.filter isMutation ops) s2)
  /\ content (runOps ops s1) = content (runOps (List.filter isMutation ops) s2)
  /\ changes (runOps ops s1) = changes (runOps (List.filter isMutation ops) s2).
Proof.
  induction ops as [|op ops IH]; intros s1 s2 Hv Hc Hh; [simpl; auto|].
  destruct (runOp_same_text s1 s2 op Hv Hc Hh) as (Hkeep & Hstep).
  cbn [List.filter]. change (runOps (op :: ops) s1) with (runOps ops (runOp s1 op)).
  destruct (isMutation op) eqn:Hop.
  - change (runOps (op :: List.filter isMutation ops) s2)
      with (runOps (List.filter isMutation ops) (runOp s2 op)).
    destruct (Hstep eq_refl) as (Hc' & Hh' & Hv'). apply IH; assumption.
  - destruct (Hkeep eq_refl) as (Hv' & Hc' & Hh'). apply IH; assumption.
Qed.

Lemma runOps_same_flag (ops : list Op) : forall s1 s2,
  open s1 = open s2 ->
  open (runOps ops s1) = open (runOps (List.filter isToggle ops) s2).
Proof.
  induction ops as [|op ops IH]; intros s1 s2 Ho; [exact Ho|].
  cbn [List.filter]. change (runOps (op :: ops) s1) with (runOps ops (runOp s1 op)).
  destruct op as [content0|offset length text| |]; cbn [isToggle isMutation negb].
  - apply IH. simpl. exact Ho.
  - apply IH. cbn [runOp]. rewrite (proj1 (addEdit_keeps_flag _ _ _ _)). exact Ho.
  - change (runOps (OpSetOpen :: List.filter isToggle ops) s2)
      with (runOps (List.filter isToggle ops) (runOp s2 OpSetOpen)).
    apply IH. reflexivity.
  - change (runOps (OpSetClosed :: List.filter isToggle ops) s2)
      with (runOps (List.filter isToggle ops) (runOp s2 OpSetClosed)).
    apply IH. reflexivity.
Qed.

Lemma file_runOps (ops : list Op) : forall this, file (runOps ops this) = file this.
Proof.
  induction ops as [|op ops IH]; intros this; [reflexivity|].
  change (runOps (op :: ops) this) with (runOps ops (runOp this op)).
  rewrite IH. destruct op; try reflexivity.
  apply addEdit_keeps_flag.
Qed.

(** X9: the flag and the text do not touch each other.  Over any sequence
    of calls, the version, the content and the history are those the
    content mutations alone produce, the flag is the one the calls to
    [setOpen] and [setClosed] alone produce, and the file name stays. *)
Theorem flag_and_text_independent (ops : list Op) (this : ScriptSnapshot) :
  let this' := runOps ops this in
  let mutated := runOps (List.filter isMutation ops) this in
  let toggled := runOps (List.filter isToggle ops) this in
  version this' = version mutated
  /\ content this' = content mutated
  /\ changes this' = changes mutated
  /\ open this' = open toggled
  /\ file this' = file this.
Proof.
  cbv zeta.
  destruct (runOps_same_text ops this this eq_refl eq_refl eq_refl)
    as (Hv & Hc & Hh).
  repeat split; try assumption.
  - apply runOps_same_flag. reflexivity.
  - apply file_runOps.
Qed.

(** ** The file map *)

(** X10: [addFile] registers the file afresh, whatever the map held under
    that name: version 1, open, the content read from the source, no
    history.  It touches no other file, and adding the same file again
    changes nothing more. *)
Theorem addFile_registers_afresh `{FileSource}
    (fileMap : gmap string ScriptSnapshot) (file0 : string) :
  let fileMap' := snd (Host.addFile fileMap file0) in
  fst (Host.addFile fileMap file0) = true
  /\ fileMap' !! file0
     = Some {| file := file0; version := 1; open := true;
               content := readFileContents file0; changes := [] |}
  /\ Host.getScriptVersion fileMap' file0 = Normal 1
  /\ Host.getScriptIsOpen fileMap' file0 = Normal true
  /\ delete file0 fileMap' = delete file0 fileMap
  /\ snd (Host.addFile fileMap' file0) = fileMap'.
Proof.
  cbv zeta. unfold Host.addFile, Host.getScriptVersion, Host.getScriptIsOpen.
  cbn [fst snd]. rewrite lookup_insert_eq.
  repeat split.
  - apply delete_insert_eq.
  - apply insert_insert_eq.
Qed.

(** X11: [removeFile] answers whether the file was registered.  Removing
    a file that was just added to a map without it answers [true] and
    gives the map back; removing it once more answers [false] and changes
    nothing. *)
Theorem removeFile_undoes_addFile `{FileSource}
    (fileMap : gmap string ScriptSnapshot) (file0 : string) :
  fileMap !! file0 = None ->
  Host.removeFile (snd (Host.addFile fileMap file0)) file0 = (true, fileMap)
  /\ Host.removeFile fileMap file0 = (false, fileMap).
Proof.
  intros Hfree. unfold Host.removeFile, Host.addFile. cbn [snd]. split.
  - rewrite lookup_insert_eq, delete_insert_eq, delete_id by exact Hfree.
    rewrite bool_decide_eq_true_2 by eauto. reflexivity.
  - rewrite Hfree, delete_id by exact Hfree.
    rewrite bool_decide_eq_false_2 by (intros [? ?]; discriminate). reflexivity.
Qed.

Lemma removeFile_undoes_addFile_witness :
  Host.removeFile (snd (Host.addFile (source := abcSource) (oneFile "abcdef") "b.ts"))
    "b.ts" = (true, oneFile "abcdef").
Proof.
  refine (proj1 (removeFile_undoes_addFile (H := abcSource) (oneFile "abcdef") "b.ts" _)).
  apply lookup_singleton_ne. discriminate.
Defined.

(** X12: the calls that reach into a snapshot throw a [TypeError] exactly
    when the file is not registered: [updateFileContents], [updateFile],
    [editFile], [getScriptVersion], [getScriptIsOpen]. *)
Theorem unregistered_file_throws `{FileSource}
    (fileMap : gmap string ScriptSnapshot) (file0 content0 : string)
    (offset length : Z) (replacementText : string) :
  (Host.updateFileContents fileMap file0 content0 = Throw TypeError
   <-> fileMap !! file0 = None)
  /\ (Host.updateFile fileMap file0 = Throw TypeError <-> fileMap !! file0 = None)
  /\ (fst (Host.editFile fileMap file0 offset length replacementText)
      = Throw TypeError
      <-> fileMap !! file0 = None)
  /\ (Host.getScriptVersion fileMap file0 = Throw TypeError
      <-> fileMap !! file0 = None)
  /\ (Host.getScriptIsOpen fileMap file0 = Throw TypeError
      <-> fileMap !! file0 = None).
Proof.
  unfold Host.updateFile, Host.updateFileContents, Host.editFile,
    Host.getScriptVersion, Host.getScriptIsOpen.
  destruct (fileMap !! file0) as [this|]; simpl;
    repeat split; intros; try reflexivity; try discriminate.
  destruct (addEdit_cases offset length) as [[Ho Hl]|Hbad].
  - rewrite (addEdit_accepted _ _ _ _ Ho Hl) in *. discriminate.
  - rewrite (addEdit_rejected _ _ _ _ Hbad) in *. discriminate.
Qed.

(** X13: [editFile] on a registered file, with an edit that [addEdit]
    accepts, edits that snapshot and stores it back under its name: it
    returns [true], the version read afterwards is one more, the snapshot is
    the one [addEdit] gives, every other file is as before and no file is
    added or dropped.  With a negative offset, or a negative length
    between exact integers, it throws instead, and the version read
    afterwards is the same. *)
Theorem editFile_edits_one_file (fileMap : gmap string ScriptSnapshot)
    (file0 : string) (this : ScriptSnapshot) (offset length : Z)
    (replacementText : string) :
  fileMap !! file0 = Some this ->
  let result := Host.editFile fileMap file0 offset length replacementText in
  (0 <= offset -> 0 <= length -> offset + length <= JS.maxExact ->
   fst result = Normal true
   /\ snd result !! file0
      = Some (snd (Snapshot.addEdit this offset length replacementText))
   /\ Host.getScriptVersion (snd result) file0 = Normal (version this + 1))
  /\ (offset < 0 \/ (length < 0 /\ exactArgs offset length) ->
      fst result = Throw AssertionError
      /\ Host.getScriptVersion (snd result) file0 = Normal (version this))
  /\ delete file0 (snd result) = delete file0 fileMap
  /\ dom (snd result) = dom fileMap.
Proof.
  intros Hlookup result. subst result. unfold Host.editFile. rewrite Hlookup.
  destruct (Snapshot.addEdit this offset length replacementText)
    as [r this'] eqn:Hedit.
  cbn [fst snd]. unfold Host.getScriptVersion. rewrite lookup_insert_eq.
  split; [|split; [|split]].
  - intros Hoffset Hlength _.
    rewrite (addEdit_accepted _ _ _ _ Hoffset Hlength) in Hedit.
    injection Hedit as <- <-. repeat split.
  - intros Hbad0.
    assert (Hbad : offset < 0 \/ length < 0) by (destruct Hbad0 as [|[? _]]; auto).
    rewrite (addEdit_rejected _ _ _ _ Hbad) in Hedit.
    injection Hedit as <- <-. repeat split.
  - apply delete_insert_eq.
  - rewrite dom_insert_L. apply elem_of_dom_2 in Hlookup. set_solver.
Qed.

Lemma editFile_edits_one_file_witness :
  fst (Host.editFile twoFiles "a.ts" 1 2 "xyz") = Normal true
  /\ Host.getScriptVersion (snd (Host.editFile twoFiles "a.ts" 1 2 "xyz")) "a.ts"
     = Normal 2
  /\ fst (Host.editFile twoFiles "a.ts" (-1) 0 "") = Throw AssertionError
  /\ Host.getScriptVersion (snd (Host.editFile twoFiles "a.ts" (-1) 0 "")) "a.ts"
     = Normal 1.
Proof.
  assert (Hlookup : twoFiles !! "a.ts" = Some (Snapshot.new "a.ts" "abcdef")).
  { unfold twoFiles. rewrite lookup_insert_ne by discriminate.
    apply lookup_singleton_eq. }
  destruct (editFile_edits_one_file twoFiles "a.ts" _ 1 2 "xyz" Hlookup)
    as (Hgood & _ & _ & _).
  destruct (editFile_edits_one_file twoFiles "a.ts" _ (-1) 0 "" Hlookup)
    as (_ & Hbad & _ & _).
  destruct Hgood as (Hcall & _ & Hversion); try (vm_compute; discriminate).
  destruct Hbad as (Hthrow & Hsame); [left; lia|].
  split; [exact Hcall|]. split; [exact Hversion|].
  split; [exact Hthrow|exact Hsame].
Defined.

(** X14: [updateFile] on a registered file reloads it from the source: the
    content becomes what the source reads, the version goes up by one, the
    history is emptied, the flag stays, and every other file is as before. *)
Theorem updateFile_reloads `{FileSource} (fileMap : gmap string ScriptSnapshot)
    (file0 : string) (this : ScriptSnapshot) :
  fileMap !! file0 = Some this ->
  exists fileMap',
    Host.updateFile fileMap file0 = Normal (true, fileMap')
    /\ fileMap' !! file0
       = Some {| file := file this; version := version this + 1;
                 open := open this; content := readFileContents file0;
                 changes := [] |}
    /\ delete file0 fileMap' = delete file0 fileMap.
Proof.
  intros Hlookup. unfold Host.updateFile, Host.updateFileContents.
  rewrite Hlookup. eexists. split; [reflexivity|].
  rewrite lookup_insert_eq. split; [reflexivity|apply delete_insert_eq].
Qed.

Lemma updateFile_reloads_witness :
  exists fileMap',
    Host.updateFile (source := abcSource) (oneFile "abcdef") "a.ts"
    = Normal (true, fileMap')
    /\ fileMap' !! "a.ts"
       = Some {| file := "a.ts"; version := 2; open := true; content := "abc";
                 changes := [] |}.
Proof.
  destruct (updateFile_reloads (H := abcSource) (oneFile "abcdef") "a.ts"
              (Snapshot.new "a.ts" "abcdef") (lookup_singleton_eq _ _))
    as (fileMap' & Hcall & Hlookup & _).
  exists fileMap'. split; [exact Hcall|exact Hlookup].
Defined.

Lemma addFiles_lookup `{FileSource} (files : list string) :
  forall (fileMap : gmap string ScriptSnapshot) (file0 : string),
    fold_left (fun m f => snd (Host.addFile m f)) files fileMap !! file0
    = if bool_decide (file0 ∈ files)
      then Some (Snapshot.new file0 (readFileContents file0))
      else fileMap !! file0.
Proof.
  induction files as [|f files IH]; intros fileMap file0; [reflexivity|].
  cbn [fold_left]. rewrite IH. unfold Host.addFile. cbn [snd].
  destruct (decide (file0 ∈ files)) as [Hin|Hout].
  - rewrite !bool_decide_eq_true_2 by set_solver. reflexivity.
  - rewrite (bool_decide_eq_false_2 (file0 ∈ files)) by exact Hout.
    destruct (decide (file0 = f)) as [->|Hne].
    + rewrite lookup_insert_eq, bool_decide_eq_true_2 by set_solver. reflexivity.
    + rewrite lookup_insert_ne by congruence.
      rewrite bool_decide_eq_false_2 by set_solver. reflexivity.
Qed.

(** X15: [addFiles] answers [true] and registers every file of the list
    afresh, a file listed twice included; a file that is not in the list
    is as before. *)
Theorem addFiles_registers_all `{FileSource}
    (fileMap : gmap string ScriptSnapshot) (files : list string) (file0 : string) :
  let result := Service.addFiles fileMap files in
  fst result = true
  /\ (file0 ∈ files ->
      snd result !! file0 = Some (Snapshot.new file0 (readFileContents file0)))
  /\ (file0 ∉ files -> snd result !! file0 = fileMap !! file0).
Proof.
  cbv zeta. unfold Service.addFiles. cbn [fst snd]. rewrite addFiles_lookup.
  split; [reflexivity|]. split; intros Hin.
  - rewrite bool_decide_eq_true_2 by exact Hin. reflexivity.
  - rewrite bool_decide_eq_false_2 by exact Hin. reflexivity.
Qed.

Lemma addFiles_registers_all_witness :
  snd (Service.addFiles (source := abcSource) (oneFile "abcdef") ["b.ts"; "a.ts"])
    !! "a.ts" = Some (Snapshot.new "a.ts" "abc")
  /\ snd (Service.addFiles (source := abcSource) (oneFile "abcdef") ["b.ts"])
       !! "a.ts" = Some (Snapshot.new "a.ts" "abcdef").
Proof.
  split.
  - refine (proj1 (proj2 (addFiles_registers_all (H := abcSource)
              (oneFile "abcdef") ["b.ts"; "a.ts"] "a.ts")) _).
    set_solver.
  - rewrite (proj2 (proj2 (addFiles_registers_all (H := abcSource)
              (oneFile "abcdef") ["b.ts"] "a.ts"))).
    + apply lookup_singleton_eq.
    + intros Hin. apply list_elem_of_singleton in Hin. discriminate Hin.
Defined.

Lemma removeFiles_lookup (files : list string) :
  forall (fileMap : gmap string ScriptSnapshot) (file0 : string),
    fold_left (fun m f => snd (Host.removeFile m f)) files fileMap !! file0
    = if bool_decide (file0 ∈ files) then None else fileMap !! file0.
Proof.
  induction files as [|f files IH]; intros fileMap file0; [reflexivity|].
  cbn [fold_left]. rewrite IH. unfold Host.removeFile. cbn [snd].
  destruct (decide (file0 ∈ files)) as [Hin|Hout].
  - rewrite !bool_decide_eq_true_2 by set_solver. reflexivity.
  - rewrite (bool_decide_eq_false_2 (file0 ∈ files)) by exact Hout.
    destruct (decide (file0 = f)) as [->|Hne].
    + rewrite lookup_delete_eq, bool_decide_eq_true_2 by set_solver. reflexivity.
    + rewrite lookup_delete_ne by congruence.
      rewrite bool_decide_eq_false_2 by set_solver. reflexivity.
Qed.

(** X16: [removeFiles] answers [true] whether or not any listed file was
    registered; afterwards no listed file is registered, and a file that
    is not in the list is as before. *)
Theorem removeFiles_removes_all (fileMap : gmap string ScriptSnapshot)
    (files : list string) (file0 : string) :
  let result := Service.removeFiles fileMap files in
  fst result = true
  /\ (file0 ∈ files -> snd result !! file0 = None)
  /\ (file0 ∉ files -> snd result !! file0 = fileMap !! file0)
  /\ fst (Service.removeFiles ∅ files) = true.
Proof.
  cbv zeta. unfold Service.removeFiles. cbn [fst snd]. rewrite removeFiles_lookup.
  split; [reflexivity|]. split; [|split; [|reflexivity]]; intros Hin.
  - rewrite bool_decide_eq_true_2 by exact Hin. reflexivity.
  - rewrite bool_decide_eq_false_2 by exact Hin. reflexivity.
Qed.

Lemma removeFiles_removes_all_witness :
  snd (Service.removeFiles twoFiles ["a.ts"; "c.ts"]) !! "a.ts" = None
  /\ snd (Service.removeFiles twoFiles ["a.ts"; "c.ts"]) !! "b.ts"
     = twoFiles !! "b.ts".
Proof.
  split.
  - refine (proj1 (proj2 (removeFiles_removes_all twoFiles ["a.ts"; "c.ts"] "a.ts")) _).
    set_solver.
  - refine (proj1 (proj2 (proj2
              (removeFiles_removes_all twoFiles ["a.ts"; "c.ts"] "b.ts"))) _).
    intros Hin. apply elem_of_cons in Hin as [Hin|Hin]; [discriminate Hin|].
    apply list_elem_of_singleton in Hin. discriminate Hin.
Defined.

(** ** Completion requests *)

(** What the request for detailed, pruned completions returns and what it
    asks the engine. *)
Lemma detailed_pruned_result `{LanguageService}
    (fileMap : gmap string ScriptSnapshot) (fileName : string) (position : Z)
    (_prefix : string) :
  let kept := List.filter (fun e => String.prefix _prefix (name e))
                (rawEntriesAt fileMap fileName position) in
  Host.getDetailedExplicitPrunedCompletionsAtPosition fileMap fileName position
    _prefix
  = (Normal (mkDetailedAutoCompletionInfo _prefix
               (map (engine_getCompletionEntryDetails fileMap fileName position)
                  (map name kept))),
     QueryCompletions fileName position false
     :: detailQueries fileName position (map name kept)).
Proof.
  cbv zeta. unfold Host.getDetailedExplicitPrunedCompletionsAtPosition,
    Host.getExplicitPrunedCompletionsAtPosition, rawEntriesAt, detailQueries.
  destruct (engine_getCompletionsAtPosition fileMap fileName position false)
    as [info|]; [|reflexivity].
  rewrite pruneStep_filter. cbn [tbind abbreviated_entries].
  rewrite detailStep_map, !map_map. reflexivity.
Qed.

(** X17: a completion request that answers sent the engine either nothing,
    and then it has no entry, or one completion query followed by one
    detail query per entry of the result, in the order of the entries;
    every name it asked the details of starts with the prefix it
    returns. *)
Theorem completion_queries `{LanguageService}
    (fileMap : gmap string ScriptSnapshot) (file0 : string) (position : Z)
    (result : DetailedAutoCompletionInfo CompletionEntryDetails)
    (calls : list EngineCall) :
  Host.getCompletionsAtPosition fileMap file0 position = (Normal result, calls) ->
  (calls = [] /\ entries result = [])
  \/ exists names,
       calls = QueryCompletions file0 position false
               :: detailQueries file0 position names
       /\ entries result
          = map (engine_getCompletionEntryDetails fileMap file0 position) names
       /\ Forall (fun n => String.prefix (pruningPrefix result) n = true) names.
Proof.
  unfold Host.getCompletionsAtPosition,
    Host.getDetailedImplicitlyPrunedCompletionsAtPosition, lift.
  destruct (Host.validPosition fileMap file0 position) as [[|]|e];
    cbn [tbind tret]; [| |discriminate].
  - destruct (Host.getPrefix fileMap file0 position) as [p|e];
      cbn [tbind tret]; [|discriminate].
    destruct (Host.knownToBreak p).
    + intros [= <- <-]. left. split; reflexivity.
    + rewrite detailed_pruned_result. cbn [app].
      intros [= <- <-]. right. eexists. split; [reflexivity|].
      split; [reflexivity|]. cbn [pruningPrefix].
      apply List.Forall_forall. intros n Hn.
      apply in_map_iff in Hn as (e & <- & He).
      apply filter_In in He as [_ He]. exact He.
  - intros [= <- <-]. left. split; reflexivity.
Qed.

Lemma completion_queries_witness :
  exists names,
    [QueryCompletions "a.ts" 3 false; QueryEntryDetails "a.ts" 3 "print";
     QueryEntryDetails "a.ts" 3 "process"]
    = QueryCompletions "a.ts" 3 false :: detailQueries "a.ts" 3 names
    /\ Forall (fun n => String.prefix "pr" n = true) names.
Proof.
  destruct (completion_queries (H := sampleEngine) (oneFile " pr") "a.ts" 3
              (mkDetailedAutoCompletionInfo "pr" ["print"; "process"])
              [QueryCompletions "a.ts" 3 false; QueryEntryDetails "a.ts" 3 "print";
               QueryEntryDetails "a.ts" 3 "process"] eq_refl)
    as [[Hnone _]|(names & Hcalls & _ & Hnames)]; [discriminate Hnone|].
  exists names. split; [exact Hcalls|exact Hnames].
Defined.

(** X18: a completion request throws exactly when the position is not 0
    and fewer than two characters of a registered text lie before it: the
    file is not registered, or the position is below 2, or it is past the
    end of the text.  It then throws a [TypeError] before any query is
    sent to the engine. *)
Theorem completion_throws_iff `{LanguageService}
    (fileMap : gmap string ScriptSnapshot) (file0 : string) (position : Z) :
  let outside :=
    position <> 0
    /\ match fileMap !! file0 with
       | Some this => position < 2 \/ JS.length (content this) < position
       | None => True
       end in
  (outside ->
   Host.getCompletionsAtPosition fileMap file0 position = (Throw TypeError, []))
  /\ (~ outside ->
      exists result calls,
        Host.getCompletionsAtPosition fileMap file0 position
        = (Normal result, calls)).
Proof.
  cbv zeta. split.
  - intros [Hnonzero Hshort].
    unfold Host.getCompletionsAtPosition,
      Host.getDetailedImplicitlyPrunedCompletionsAtPosition.
    rewrite validPosition_short_snapshot; [reflexivity|exact Hnonzero|].
    intros this Hlookup. rewrite Hlookup in Hshort. exact Hshort.
  - intros Hinside.
    destruct (Z.eq_dec position 0) as [->|Hnonzero].
    { eexists. eexists. apply validPosition_zero. }
    destruct (fileMap !! file0) as [this|] eqn:Hlookup; [|tauto].
    assert (Hposition : 2 <= position <= JS.length (content this)) by lia.
    unfold Host.getCompletionsAtPosition,
      Host.getDetailedImplicitlyPrunedCompletionsAtPosition, lift.
    rewrite (validPosition_inside _ _ _ _ Hlookup Hposition).
    destruct (validAfter _ _ _); cbn [tbind tret]; [|eauto].
    rewrite (getPrefix_prefixOf _ _ _ _ Hlookup). cbn [tbind tret].
    destruct (Host.knownToBreak _); [eauto|].
    rewrite detailed_pruned_result. eauto.
Qed.

Lemma completion_throws_iff_witness :
  Host.getCompletionsAtPosition (engine := sampleEngine) (oneFile "abc") "a.ts" 4
  = (Throw TypeError, [])
  /\ exists result calls,
       Host.getCompletionsAtPosition (engine := sampleEngine) (oneFile "abc") "a.ts" 3
       = (Normal result, calls).
Proof.
  split.
  - refine (proj1 (completion_throws_iff (H := sampleEngine) (oneFile "abc") "a.ts" 4) _).
    split; [discriminate|]. unfold oneFile. rewrite lookup_singleton_eq.
    right. vm_compute. reflexivity.
  - refine (proj2 (completion_throws_iff (H := sampleEngine) (oneFile "abc") "a.ts" 3) _).
    intros [_ Hshort]. unfold oneFile in Hshort.
    rewrite lookup_singleton_eq in Hshort.
    destruct Hshort as [Hlow|Hhigh]; [discriminate Hlow|discriminate Hhigh].
Defined.

Lemma append_empty_right (s : string) : s +:+ "" = s.
Proof.
  induction s as [|c s IH]; [reflexivity|].
  change (String c s +:+ "") with (String c (s +:+ "")). f_equal. exact IH.
Qed.

(** X19: on a registered file [getPrefix] never throws, at any position;
    the prefix it returns is the end of the text before the position and
    holds only characters that [validMethodChar] accepts. *)
Theorem getPrefix_is_accepted_suffix (fileMap : gmap string ScriptSnapshot)
    (fileName : string) (this : ScriptSnapshot) (position : Z) :
  fileMap !! fileName = Some this ->
  exists p,
    Host.getPrefix fileMap fileName position = Normal p
    /\ endsWith (Snapshot.getText this 0 position) p
    /\ allChars acceptedChar p = true
    /\ JS.length p <= JS.clamp position (Snapshot.getLength this).
Proof.
  intros Hlookup. rewrite (getPrefix_prefixOf _ _ _ _ Hlookup).
  eexists. split; [reflexivity|]. unfold Snapshot.getText, Snapshot.getLength.
  assert (Hlen : JS.length (JS.substring (content this) 0 position)
                 = JS.clamp position (JS.length (content this))).
  { rewrite length_JS_substring. pose proof (length_nonneg (content this)).
    unfold JS.clamp. lia. }
  rewrite <- Hlen. clear Hlen.
  set (text := JS.substring (content this) 0 position). unfold prefixOf.
  destruct (splitRun_spec acceptedChar text) as (Hcut & Hrun & _).
  destruct (splitRun acceptedChar text) as [before run]. cbn [fst snd] in *.
  assert (Hrunlen : JS.length run <= JS.length text).
  { rewrite Hcut, JS_length_append. pose proof (length_nonneg before). lia. }
  assert (Hnone : endsWith text "" /\ allChars acceptedChar "" = true
                  /\ JS.length "" <= JS.length text).
  { split; [exists text; symmetry; apply append_empty_right|].
    split; [reflexivity|apply length_nonneg]. }
  destruct (lastChar before) as [b|]; [|exact Hnone].
  destruct (isBoundary b); [|exact Hnone].
  split; [exists before; exact Hcut|]. split; [exact Hrun|exact Hrunlen].
Qed.

Lemma getPrefix_is_accepted_suffix_witness :
  exists p,
    Host.getPrefix (oneFile "object.pr") "a.ts" 9 = Normal p
    /\ endsWith (Snapshot.getText (Snapshot.new "a.ts" "object.pr") 0 9) p.
Proof.
  destruct (getPrefix_is_accepted_suffix (oneFile "object.pr") "a.ts"
              (Snapshot.new "a.ts" "object.pr") 9 (lookup_singleton_eq _ _))
    as (p & Hcall & Hends & _).
  exists p. split; [exact Hcall|exact Hends].
Defined.

Lemma splitRun_stop (isId : ascii -> bool) (c : ascii) (s : string) :
  isId c = false ->
  splitRun isId (s +:+ String c "") = (s +:+ String c "", "").
Proof.
  intros Hc. induction s as [|a s IH]; simpl.
  - rewrite Hc. reflexivity.
  - rewrite IH. destruct s; reflexivity.
Qed.

(** X20: when the character just before the position is one that
    [validMethodChar] rejects, a dot included, the prefix is empty: right
    after [object.] nothing is pruned. *)
Theorem getPrefix_after_rejected_char (fileMap : gmap string ScriptSnapshot)
    (fileName : string) (this : ScriptSnapshot) (position : Z) (c : ascii) :
  fileMap !! fileName = Some this ->
  1 <= position <= Snapshot.getLength this ->
  JS.charAt (content this) (position - 1) = String c "" ->
  acceptedChar c = false ->
  Host.getPrefix fileMap fileName position = Normal "".
Proof.
  unfold Snapshot.getLength. intros Hlookup Hposition Hchar Hc.
  rewrite (getPrefix_prefixOf _ _ _ _ Hlookup). f_equal.
  destruct (getText_split this 0 (position - 1) position) as [_ Hconcat];
    try (unfold Snapshot.getLength; lia).
  unfold Snapshot.getText in Hconcat. rewrite <- Hconcat.
  assert (Hlast : JS.substring (content this) (position - 1) position = String c "").
  { rewrite substring_in_bounds by lia.
    replace (Z.to_nat (position - (position - 1))) with 1%nat by lia.
    unfold JS.charAt in Hchar.
    destruct (Z.leb_spec 0 (position - 1)); [|lia].
    destruct (Z.ltb_spec (position - 1) (JS.length (content this))); [|lia].
    exact Hchar. }
  rewrite Hlast. unfold prefixOf. rewrite (splitRun_stop _ _ _ Hc).
  destruct (lastChar _) as [b|]; [|reflexivity].
  destruct (isBoundary b); reflexivity.
Qed.

Lemma getPrefix_after_rejected_char_witness :
  Host.getPrefix (oneFile "object.") "a.ts" 7 = Normal "".
Proof.
  refine (getPrefix_after_rejected_char (oneFile "object.") "a.ts"
            (Snapshot.new "a.ts" "object.") 7 "."%char
            (lookup_singleton_eq _ _) _ _ _).
  - vm_compute. split; discriminate.
  - reflexivity.
  - reflexivity.
Defined.

(** X21: [prefixMatch] holds exactly when the string is the prefix
    followed by something, characters compared one by one; every string
    matches the empty prefix and itself. *)
Theorem prefixMatch_iff_starts_with (_prefix str : string) :
  (Host.prefixMatch _prefix str = true <-> exists rest, str = _prefix +:+ rest)
  /\ Host.prefixMatch "" str = true
  /\ Host.prefixMatch str str = true.
Proof.
  assert (Hiff : forall p s,
            String.prefix p s = true <-> exists rest, s = p +:+ rest).
  { induction p as [|a p IH]; intros s.
    - split; [intros _; exists s; reflexivity|intros _; destruct s; reflexivity].
    - destruct s as [|b s]; simpl.
      + split; [discriminate|intros [rest Hrest]; discriminate Hrest].
      + destruct (ascii_dec a b) as [->|Hne].
        * rewrite IH. split; intros [rest Hrest]; exists rest.
          -- rewrite Hrest. reflexivity.
          -- change (String b p +:+ rest) with (String b (p +:+ rest)) in Hrest.
             injection Hrest as Hrest. exact Hrest.
        * split; [discriminate|]. intros [rest Hrest].
          change (String a p +:+ rest) with (String a (p +:+ rest)) in Hrest.
          injection Hrest as Hab _. congruence. }
  rewrite !prefixMatch_prefix. split; [apply Hiff|].
  split; [apply prefix_empty|].
  apply Hiff. exists "". symmetry. apply append_empty_right.
Qed.

(** ** Positions, characters and the reach of the history *)

(** X22: among the code units below 256, [validMethodChar] accepts the
    ASCII letters of either case, the digits, the characters ( ) $ _ and
    sharp s, and nothing else; it rejects the empty string, which is what
    [charAt] gives outside the text, and it throws on [undefined]. *)
Theorem validMethodChar_accepts (c : ascii) :
  Host.validMethodChar (Some (String c ""))
  = Normal (isIdentifierChar c || Ascii.eqb c sharp_s)
  /\ Host.validMethodChar (Some "") = Normal false
  /\ Host.validMethodChar None = Throw TypeError.
Proof.
  split; [|split; reflexivity].
  rewrite validMethodChar_string, acceptedString_char. reflexivity.
Qed.

(** X23: from position 2 to the end of a registered text, the position is
    valid exactly by this rule: when the character before the position is
    a dot, the character before the dot must be accepted by
    [validMethodChar]; otherwise the character before the position must
    be. *)
Theorem validPosition_rule (fileMap : gmap string ScriptSnapshot)
    (fileName : string) (this : ScriptSnapshot) (position : Z) :
  fileMap !! fileName = Some this ->
  2 <= position <= JS.length (content this) ->
  Host.validPosition fileMap fileName position
  = Normal (validAfter acceptedString
              (JS.charAt (content this) (position - 2))
              (JS.charAt (content this) (position - 1))).
Proof. exact (validPosition_inside fileMap fileName this position). Qed.

Lemma validPosition_rule_witness :
  Host.validPosition (oneFile "a+.") "a.ts" 3 = Normal false
  /\ Host.validPosition (oneFile "a+.") "a.ts" 2 = Normal false.
Proof.
  split.
  - refine (validPosition_rule (oneFile "a+.") "a.ts" (Snapshot.new "a.ts" "a+.") 3
              (lookup_singleton_eq _ _) _).
    vm_compute. split; discriminate.
  - refine (validPosition_rule (oneFile "a+.") "a.ts" (Snapshot.new "a.ts" "a+.") 2
              (lookup_singleton_eq _ _) _).
    vm_compute. split; discriminate.
Defined.

(** X24: on a text whose code units are all below 256, as every [string]
    is, and that holds no sharp s before the position, [getPrefix] is the
    prefix extraction over the ASCII letters, the digits and the
    characters ( ) $ _ : the trailing run of such characters when a dot,
    a space or a newline stands before the run, the empty string
    otherwise.  Nothing is said of a text with a code unit of 256 or
    more. *)
Theorem getPrefix_on_plain_text (fileMap : gmap string ScriptSnapshot)
    (fileName : string) (this : ScriptSnapshot) (position : Z) :
  fileMap !! fileName = Some this ->
  (forall n, String.get n (JS.substring (content this) 0 position) <> Some sharp_s) ->
  Host.getPrefix fileMap fileName position
  = Normal (prefixOf isIdentifierChar (JS.substring (content this) 0 position)).
Proof. exact (getPrefix_without_sharp_s fileMap fileName this position). Qed.

Lemma getPrefix_on_plain_text_witness :
  Host.getPrefix (oneFile "foo bar") "a.ts" 7 = Normal "bar".
Proof.
  refine (getPrefix_on_plain_text (oneFile "foo bar") "a.ts"
            (Snapshot.new "a.ts" "foo bar") 7 (lookup_singleton_eq _ _) _).
  intros n. do 8 (destruct n as [|n]; [discriminate|]). discriminate.
Defined.

Lemma history_length_step (n : Z) :
  1 <= n ->
  (if (n - 1) mod 100 + 1 >=? 100 then 0 else (n - 1) mod 100 + 1) + 1
  = n mod 100 + 1.
Proof.
  intros Hn. destruct (Z.geb_spec ((n - 1) mod 100 + 1) 100);
    Z.div_mod_to_equations; lia.
Qed.

(** How many entries the history holds after [n] edits of a snapshot whose
    history is empty. *)
Lemma history_length_after_edits (edits : list Edit) :
  forall this,
    List.Forall editSucceeds edits ->
    changes this = [] ->
    Z.of_nat (List.length (changes (runOps (map opOfEdit edits) this)))
    = if Z.of_nat (List.length edits) =? 0 then 0
      else (Z.of_nat (List.length edits) - 1) mod 100 + 1.
Proof.
  induction edits as [|e edits IH] using rev_ind; intros this Hok Hempty.
  - simpl. rewrite Hempty. reflexivity.
  - apply List.Forall_app in Hok as [Hok He].
    apply List.Forall_cons_iff in He as [He _]. specialize (IH this Hok).
    unfold runOps in *. rewrite map_app, fold_left_app, length_app. simpl.
    fold (runOp (fold_left runOp (map opOfEdit edits) this) (opOfEdit e)).
    rewrite (proj1 (changes_runOp_edit e _ He)), length_app. simpl List.length.
    rewrite Nat2Z.inj_add.
    assert (Hif : forall (b : bool) (l : list TextChangeRange),
              Z.of_nat (List.length (if b then [] else l))
              = if b then 0 else Z.of_nat (List.length l))
      by (intros [|] l; reflexivity).
    rewrite Hif, (IH Hempty). clear Hif IH. unfold maxChanges.
    set (n := Z.of_nat (List.length edits)).
    assert (Hn : 0 <= n) by (subst n; lia).
    replace (Z.of_nat (List.length edits + 1)) with (n + 1) by (subst n; lia).
    destruct (Z.eqb_spec (n + 1) 0) as [|_]; [lia|].
    replace (n + 1 - 1) with n by lia.
    destruct (Z.eqb_spec n 0) as [->|Hpos]; [reflexivity|].
    apply history_length_step. lia.
Qed.

(** X25: the history fills and empties in rounds of 100.  After n >= 1
    edits of a freshly created snapshot, none of which throws, it holds
    (n - 1) mod 100 + 1 entries, so that the changes since an older
    version are known as far back as that many versions, and unknown
    ([null]) one version further. *)
Theorem history_reach_after_edits (file0 contents : string) (edits : list Edit) :
  (1 <= List.length edits)%nat ->
  List.Forall editSucceeds edits ->
  let this := runOps (map opOfEdit edits) (Snapshot.new file0 contents) in
  let reach := (Z.of_nat (List.length edits) - 1) mod 100 + 1 in
  Z.of_nat (List.length (changes this)) = reach
  /\ Snapshot.getTextChangeRangeSinceVersion this (version this - reach) <> None
  /\ Snapshot.getTextChangeRangeSinceVersion this (version this - reach - 1) = None.
Proof.
  intros Hn Hok this reach.
  assert (Hlen : Z.of_nat (List.length (changes this)) = reach).
  { subst this reach. rewrite history_length_after_edits by (assumption || reflexivity).
    destruct (Z.eqb_spec (Z.of_nat (List.length edits)) 0); [lia|reflexivity]. }
  assert (Hreach : 1 <= reach <= 100).
  { subst reach. pose proof (Z.mod_pos_bound (Z.of_nat (List.length edits) - 1) 100).
    lia. }
  split; [exact Hlen|]. unfold Snapshot.getTextChangeRangeSinceVersion.
  rewrite Hlen. split.
  - destruct (Z.eqb_spec (version this) (version this - reach)); [discriminate|].
    destruct (Z.leb_spec (version this - (version this - reach)) reach);
      [discriminate|lia].
  - destruct (Z.eqb_spec (version this) (version this - reach - 1)); [lia|].
    destruct (Z.leb_spec (version this - (version this - reach - 1)) reach);
      [lia|reflexivity].
Qed.

Lemma history_reach_after_edits_witness :
  Z.of_nat (List.length (changes
     (runOps (map opOfEdit (repeat ((0, 0, "x") : Edit) 205))
        (Snapshot.new "a.ts" "abc")))) = 5.
Proof.
  refine (proj1 (history_reach_after_edits "a.ts" "abc"
                   (repeat ((0, 0, "x") : Edit) 205) _ _)).
  - vm_compute. repeat constructor.
  - apply List.Forall_forall. intros e He. apply repeat_spec in He.
    subst e. simpl. lia.
Defined.
